(** * saritasa-pr-approved-action: review aggregation and policy verdicts

    A shallow embedding of the three entry points of the action:

    - [ReviewPolicyRegex]  : src/unnamed/part_001 (approval policy, threshold
      read with a regular expression and [Number.parseInt], gated on the
      trigger action);
    - [ReviewPolicyNumber] : src/unnamed/part_002 (approval policy, threshold
      read with [Number(...)]);
    - [LeadReviewers]      : src/src/main.ts (lead reviewers invited?).

    JavaScript built-ins used by the sources (strings, numbers, [Map], [Set],
    [parseInt], [Number], the regular expression [/\d{1,2}/]) are modelled in
    [JS]; the calls into [@actions/core] and [console] are recorded as a
    trace of events by the [Runtime] monad. *)

From Stdlib Require Import List String Ascii Bool Arith ZArith QArith Lia.
From Stdlib Require Import Permutation.
From Stdlib Require Qcanon.
Import ListNotations.

Local Open Scope string_scope.

(* ================================================================== *)
(** ** JavaScript values used by the sources *)
(* ================================================================== *)

Module JS.

(** *** Strings

    A string is its sequence of code units; [ascii] gives the code units
    below 256, which covers every character the sources test for. *)

Definition code (c : ascii) : nat := nat_of_ascii c.

Definition is_digit (c : ascii) : bool :=
  ((48 <=? code c) && (code c <=? 57))%nat.

Definition digit_value (c : ascii) : Z := Z.of_nat (code c) - 48.

(** WhiteSpace and LineTerminator code units below 256:
    TAB, LF, VT, FF, CR, SP, NBSP. *)
Definition is_whitespace (c : ascii) : bool :=
  existsb (Nat.eqb (code c)) [9; 10; 11; 12; 13; 32; 160]%nat.

Fixpoint trim_start (s : string) : string :=
  match s with
  | String c r => if is_whitespace c then trim_start r else s
  | EmptyString => EmptyString
  end.

Definition chars (s : string) : list ascii := list_ascii_of_string s.

Definition trim_start_chars (l : list ascii) : list ascii :=
  chars (trim_start (string_of_list_ascii l)).

Definition trim (s : string) : string :=
  string_of_list_ascii
    (rev (trim_start_chars (rev (chars (trim_start s))))).

(** Longest prefix of code units satisfying [p], and the rest. *)
Fixpoint span (p : ascii -> bool) (l : list ascii) : list ascii * list ascii :=
  match l with
  | c :: r =>
      if p c then let '(a, b) := span p r in (c :: a, b) else ([], l)
  | [] => ([], [])
  end.

(** Value of a digit sequence in base [radix]. *)
Definition digits_value (radix : Z) (val : ascii -> Z) (ds : list ascii) : Z :=
  fold_left (fun acc c => radix * acc + val c)%Z ds 0%Z.

(** *** Numbers

    A Number is NaN, an infinity, or a finite binary64 value, held as the
    rational it denotes in lowest terms (the sign of zero is not kept: no
    comparison of the sources tells -0 from 0). *)

Inductive JSNumber : Type :=
| JNaN
| JInf (negative : bool)
| JNum (q : Q).

Definition of_Z (z : Z) : JSNumber := JNum (inject_Z z).
Definition of_nat (n : nat) : JSNumber := of_Z (Z.of_nat n).

(** The integer nearest to [n / d] for [d > 0], ties to the even one. *)
Definition round_half_even (n d : Z) : Z :=
  let q := (n / d)%Z in
  match (2 * (n mod d) ?= d)%Z with
  | Lt => q
  | Gt => (q + 1)%Z
  | Eq => if Z.even q then q else (q + 1)%Z
  end.

(** The exponent [e] with [2^e <= a / d < 2^(e+1)], for [a, d > 0]. *)
Definition floor_log2 (a d : Z) : Z :=
  let e0 := (Z.log2 a - Z.log2 d)%Z in
  if (0 <=? e0)%Z
  then (if (a <? d * 2 ^ e0)%Z then e0 - 1 else e0)%Z
  else (if (a * 2 ^ (- e0) <? d)%Z then e0 - 1 else e0)%Z.

(** The binary64 value nearest to [a / d] for [a, d > 0] (ties to even):
    a multiple [m * 2^k] of the spacing [2^k] of its binade, with 53
    significant bits, [k >= -1074] (subnormals, underflow to 0); [None]
    when the result reaches [2^1024] (overflow to Infinity). *)
Definition binary64_positive (a d : Z) : option Q :=
  let e := floor_log2 a d in
  let k := Z.max (e - 52) (-1074) in
  if (0 <=? k)%Z then
    let m := round_half_even a (d * 2 ^ k) in
    if (2 ^ 1024 <=? m * 2 ^ k)%Z then None
    else Some (inject_Z (m * 2 ^ k))
  else
    let m := round_half_even (a * 2 ^ (- k)) d in
    Some (Qred (Qmake m (Z.to_pos (2 ^ (- k))))).

(** The Number value for the real number [q]: what a numeric literal or a
    parsed digit string of that value evaluates to. *)
Definition binary64 (q : Q) : JSNumber :=
  let r := Qred q in
  match Qnum r with
  | Z0 => of_Z 0
  | Zpos a =>
      match binary64_positive (Zpos a) (Zpos (Qden r)) with
      | Some v => JNum v
      | None => JInf false
      end
  | Zneg a =>
      match binary64_positive (Zpos a) (Zpos (Qden r)) with
      | Some v => JNum (- v)
      | None => JInf true
      end
  end.

Definition isNaN (a : JSNumber) : bool :=
  match a with JNaN => true | _ => false end.

(** [a < b]; false when either side is NaN. *)
Definition lt (a b : JSNumber) : bool :=
  match a, b with
  | JNaN, _ | _, JNaN => false
  | JInf true, JInf true => false
  | JInf true, _ => true
  | _, JInf true => false
  | JInf false, _ => false
  | _, JInf false => true
  | JNum p, JNum q => negb (Qle_bool q p)
  end.

Definition gt (a b : JSNumber) : bool := lt b a.

(** [a <= b] and [a >= b]; false when either side is NaN. *)
Definition le (a b : JSNumber) : bool :=
  negb (isNaN a) && negb (isNaN b) && negb (lt b a).

Definition ge (a b : JSNumber) : bool := le b a.

(** *** [Number.parseInt(s, 10)]

    Leading white space is dropped, one sign is read, then the longest
    prefix of decimal digits; no digit gives NaN, otherwise the Number
    value for the signed integer the digits denote. With radix 10 no "0x"
    prefix is stripped. *)
Definition parseInt10 (s : string) : JSNumber :=
  let input := chars (trim_start s) in
  let '(sign, rest) :=
    match input with
    | "-"%char :: r => ((-1)%Z, r)
    | "+"%char :: r => (1%Z, r)
    | _ => (1%Z, input)
    end in
  match fst (span is_digit rest) with
  | [] => JNaN
  | ds => binary64 (inject_Z (sign * digits_value 10 digit_value ds))
  end.

(** *** [/\d{1,2}/.test(s)]

    [match_d12 l] is the greedy match of [\d{1,2}] at the head of [l]
    (the number of code units consumed); [test_d12] tries every start
    position from the left, as an unanchored pattern does. *)
Definition match_d12 (l : list ascii) : option nat :=
  match l with
  | c :: r =>
      if is_digit c then
        match r with
        | c' :: _ => if is_digit c' then Some 2%nat else Some 1%nat
        | [] => Some 1%nat
        end
      else None
  | [] => None
  end.

Fixpoint test_d12_from (l : list ascii) : bool :=
  match match_d12 l with
  | Some _ => true
  | None =>
      match l with
      | _ :: r => test_d12_from r
      | [] => false
      end
  end.

Definition test_d12 (s : string) : bool := test_d12_from (chars s).

(** [s.split(sep)] for a one-character separator: never empty. *)
Fixpoint split (sep : ascii) (s : string) : list string :=
  match s with
  | EmptyString => [EmptyString]
  | String c r =>
      if Ascii.eqb c sep then EmptyString :: split sep r
      else
        match split sep r with
        | h :: t => String c h :: t
        | [] => [String c EmptyString]
        end
  end.

(** A template-literal hole [${v}] for a string that may be [undefined]. *)
Definition interpolate (v : option string) : string :=
  match v with Some s => s | None => "undefined" end.

(** *** [Number(s)] on a string (StringToNumber)

    White space is trimmed on both sides; the empty string is 0; "0x", "0o"
    and "0b" introduce unsigned integers in base 16, 8 and 2; otherwise an
    optional sign is followed by "Infinity" or by a decimal literal with
    optional fraction and exponent. Anything else is NaN. A literal gives
    the Number value for the real number it denotes. *)

Definition in_range (lo hi : nat) (c : ascii) : bool :=
  ((lo <=? code c) && (code c <=? hi))%nat.

Definition is_hex_digit (c : ascii) : bool :=
  is_digit c || in_range 97 102 c || in_range 65 70 c.

Definition hex_value (c : ascii) : Z :=
  if is_digit c then digit_value c
  else if in_range 97 102 c then Z.of_nat (code c) - 87
  else Z.of_nat (code c) - 55.

Definition integer_literal (radix : Z) (p : ascii -> bool) (val : ascii -> Z)
    (l : list ascii) : JSNumber :=
  match l with
  | [] => JNaN
  | _ =>
      if forallb p l then binary64 (inject_Z (digits_value radix val l))
      else JNaN
  end.

Definition exponent_part (l : list ascii) : option Z :=
  match l with
  | [] => Some 0%Z
  | c :: r =>
      if (Ascii.eqb c "e" || Ascii.eqb c "E")%char then
        let '(negative, ds) :=
          match r with
          | "-"%char :: t => (true, t)
          | "+"%char :: t => (false, t)
          | _ => (false, r)
          end in
        match ds with
        | [] => None
        | _ =>
            if forallb is_digit ds then
              let e := digits_value 10 digit_value ds in
              Some (if negative then (- e)%Z else e)
            else None
        end
      else None
  end.

Definition unsigned_decimal (l : list ascii) : option Q :=
  let '(ip, r1) := span is_digit l in
  let '(fp, r2) :=
    match r1 with
    | "."%char :: t => span is_digit t
    | _ => ([], r1)
    end in
  match (ip ++ fp)%list with
  | [] => None
  | ds =>
      match exponent_part r2 with
      | None => None
      | Some e =>
          Some (Qred (inject_Z (digits_value 10 digit_value ds)
                      * Qpower (inject_Z 10) (e - Z.of_nat (List.length fp))))
      end
  end.

Definition list_ascii_eqb (a b : list ascii) : bool :=
  String.eqb (string_of_list_ascii a) (string_of_list_ascii b).

Definition unsigned_decimal_literal (negative : bool) (l : list ascii)
    : JSNumber :=
  if list_ascii_eqb l (chars "Infinity") then JInf negative
  else
    match unsigned_decimal l with
    | Some q => binary64 (if negative then - q else q)
    | None => JNaN
    end.

Definition Number (s : string) : JSNumber :=
  match chars (trim s) with
  | [] => of_Z 0
  | "0"%char :: "x"%char :: r | "0"%char :: "X"%char :: r =>
      integer_literal 16 is_hex_digit hex_value r
  | "0"%char :: "o"%char :: r | "0"%char :: "O"%char :: r =>
      integer_literal 8 (in_range 48 55) digit_value r
  | "0"%char :: "b"%char :: r | "0"%char :: "B"%char :: r =>
      integer_literal 2 (in_range 48 49) digit_value r
  | "-"%char :: r => unsigned_decimal_literal true r
  | "+"%char :: r => unsigned_decimal_literal false r
  | l => unsigned_decimal_literal false l
  end.

(** *** [Map<string, V>]

    A [Map] keeps its entries in insertion order; [set] on a key already
    present replaces the value in place, on a new key appends an entry. *)

Section JSMap.
Context {V : Type}.

Definition JSMap : Type := list (string * V).

Definition new_Map : JSMap := [].

Fixpoint set (k : string) (v : V) (m : JSMap) : JSMap :=
  match m with
  | [] => [(k, v)]
  | (k', v') :: m' =>
      if String.eqb k' k then (k, v) :: m' else (k', v') :: set k v m'
  end.

Fixpoint get (k : string) (m : JSMap) : option V :=
  match m with
  | [] => None
  | (k', v') :: m' => if String.eqb k' k then Some v' else get k m'
  end.

Definition keys (m : JSMap) : list string := map fst m.
Definition values (m : JSMap) : list V := map snd m.
End JSMap.

Arguments JSMap : clear implicits.

(** *** [Set<string>]

    Insertion-ordered, [add] of a member changes nothing. *)

Definition JSSet : Type := list string.

Definition new_Set : JSSet := [].

Definition has (x : string) (s : JSSet) : bool := existsb (String.eqb x) s.

Definition add (x : string) (s : JSSet) : JSSet :=
  if has x s then s else (s ++ [x])%list.

(** [Array.prototype.find]: the first element satisfying the callback,
    [None] standing for [undefined]. *)
Definition find {A : Type} (p : A -> bool) (l : list A) : option A :=
  List.find p l.

(** *** Untyped values (parsed YAML, HTTP response bodies) *)

#[warnings="-register-all"]
Inductive JSVal : Type :=
| JUndefined
| JNull
| JBoolean (b : bool)
| JNumber (n : JSNumber)
| JString (s : string)
| JArray (items : list JSVal)
| JObject (props : list (string * JSVal)).

(** [k in v] for an own property name [k] that is not an array index or
    built-in (the sources ask for "content" and "encoding"). *)
Definition has_property (k : string) (v : JSVal) : bool :=
  match v with
  | JObject props => existsb (fun kv => String.eqb (fst kv) k) props
  | _ => false
  end.

(** [s === v] for a string [s]. *)
Definition strict_equal_string (s : string) (v : JSVal) : bool :=
  match v with
  | JString t => String.eqb s t
  | _ => false
  end.

Definition instanceof_Array (v : JSVal) : bool :=
  match v with JArray _ => true | _ => false end.

End JS.

(* ================================================================== *)
(** ** Effects: [@actions/core], [console], exceptions *)
(* ================================================================== *)

Module Runtime.
Import JS.

(** An argument of [console.log] / [console.group]. *)
Inductive LogArg : Type :=
| LogString (s : string)
| LogNumber (n : nat)
| LogBoolean (b : bool)
| LogValue (v : JSVal)
| LogMap (m : JSMap string).

(** What an invocation does to the outside, in order. *)
Inductive Event : Type :=
| SetFailed (message : string)
| SetOutput (name value : string)
| Info (message : string)
| ConsoleGroup (label : list LogArg)
| ConsoleLog (args : list LogArg)
| ConsoleGroupEnd.

(** A thrown value: an [Error] with its message, or anything else. *)
Inductive Thrown : Type :=
| ThrownError (message : string)
| ThrownOther.

(** A computation: the events it emitted, then a value or a thrown one. *)
Definition Action (A : Type) : Type := (list Event * (Thrown + A))%type.

Definition ret {A : Type} (a : A) : Action A := ([], inr a).

Definition throw {A : Type} (e : Thrown) : Action A := ([], inl e).

Definition bind {A B : Type} (c : Action A) (k : A -> Action B) : Action B :=
  match c with
  | (t, inl e) => (t, inl e)
  | (t, inr a) => let '(t', r) := k a in ((t ++ t')%list, r)
  end.

Definition emit (ev : Event) : Action unit := ([ev], inr tt).

(** [await p] on a promise that settles with [r]. *)
Definition await {A : Type} (r : Thrown + A) : Action A := ([], r).

(** [await Promise.all([a, b])]: both requests are started and the first
    rejection to arrive is thrown; when both reject, [a_rejects_first]
    tells whose rejection arrived first. *)
Definition Promise_all2 {A B : Type} (a_rejects_first : bool)
    (a : Thrown + A) (b : Thrown + B) : Action (A * B) :=
  match a, b with
  | inr x, inr y => ret (x, y)
  | inl e, inr _ => throw e
  | inr _, inl e => throw e
  | inl e1, inl e2 => throw (if a_rejects_first then e1 else e2)
  end.

(** [try { body } catch (error) { handler error }] *)
Definition try_catch (body : Action unit) (handler : Thrown -> Action unit)
    : Action unit :=
  match body with
  | (t, inr a) => (t, inr a)
  | (t, inl e) => let '(t', r) := handler e in ((t ++ t')%list, r)
  end.

Definition trace {A : Type} (c : Action A) : list Event := fst c.
Definition outcome {A : Type} (c : Action A) : Thrown + A := snd c.

Definition setFailed (message : string) : Action unit := emit (SetFailed message).
Definition setOutput (name value : string) : Action unit :=
  emit (SetOutput name value).
Definition info (message : string) : Action unit := emit (Info message).
Definition console_group (label : list LogArg) : Action unit :=
  emit (ConsoleGroup label).
Definition console_log (args : list LogArg) : Action unit :=
  emit (ConsoleLog args).
Definition console_groupEnd : Action unit := emit ConsoleGroupEnd.

(** [catch (error) { if (error instanceof Error) setFailed(error.message) }] *)
Definition report_error (error : Thrown) : Action unit :=
  match error with
  | ThrownError message => setFailed message
  | ThrownOther => ret tt
  end.

(** [l.forEach(x => f x)] for a callback with effects only. *)
Fixpoint forEach {A : Type} (f : A -> Action unit) (l : list A) : Action unit :=
  match l with
  | [] => ret tt
  | x :: r => bind (f x) (fun _ => forEach f r)
  end.

Definition is_published (ev : Event) : bool :=
  match ev with SetOutput _ _ => true | _ => false end.

Definition is_failure (ev : Event) : bool :=
  match ev with SetFailed _ => true | _ => false end.

End Runtime.

Declare Scope action_scope.
Delimit Scope action_scope with action.
Notation "x <- c ;; k" := (Runtime.bind c (fun x => k))
  (at level 61, c at next level, right associativity) : action_scope.
Notation "' pat <- c ;; k" :=
  (Runtime.bind c (fun x => match x with pat => k end))
  (at level 61, pat pattern, c at next level, right associativity)
  : action_scope.
Notation "c ;; k" := (Runtime.bind c (fun _ => k))
  (at level 61, right associativity) : action_scope.

(* ================================================================== *)
(** ** Declarations the three entry points repeat *)
(* ================================================================== *)

Module Github.
Import JS.

Record GithubEnv : Type := {
  token : option string;
  repositoryPath : option string;
  eventPath : option string
}.

(** [isExistGithubEnvironmentVariables] in part_001, [doesGithubEnvExist]
    in part_002 and main.ts: the same body. *)
Definition doesGithubEnvExist (githubEnv : GithubEnv) : bool :=
  match token githubEnv, repositoryPath githubEnv, eventPath githubEnv with
  | Some _, Some _, Some _ => true
  | _, _, _ => false
  end.

(** A property the type guard has shown to be non-null. *)
Definition narrowed (v : option string) : string :=
  match v with Some s => s | None => EmptyString end.

Record PullRequest : Type := { number : Z }.

Record WebhookPayload : Type := {
  action : option string;
  pull_request : option PullRequest
}.

(** A posted review: [user] may be null, and the code guards against a
    null [login]. *)
Record ReviewUser : Type := { login : option string }.

Record Review : Type := {
  user : option ReviewUser;
  state : string
}.

(** An entry of [listRequestedReviewers(...).data.users]. *)
Record RequestedReviewer : Type := { requested_login : string }.

Record PullsRequestConfig : Type := {
  owner : string;
  repo : option string;
  pull_number : Z
}.

(** [const [owner, repo] = repositoryPath.split('/')] with the PR number. *)
Definition pullsRequestConfig (repositoryPath : string) (pr : PullRequest)
    : PullsRequestConfig :=
  let parts := split "/" repositoryPath in
  {| owner := nth 0 parts EmptyString;
     repo := nth_error parts 1;
     pull_number := number pr |}.

(** [review.user?.login] *)
Definition user_login (review : Review) : option string :=
  match user review with
  | Some u => login u
  | None => None
  end.

End Github.

(* ================================================================== *)
(** ** The approval policy: what part_001 and part_002 have in common *)
(* ================================================================== *)

Module ReviewPolicy.
Import JS Runtime Github.
Local Open Scope action_scope.

(** [enum ReviewState]: the members are strings, and [review.state as
    ReviewState] lets any platform state through ("COMMENTED", ...). *)
Definition ReviewState : Type := string.
Definition Approved : ReviewState := "APPROVED".
Definition ChangesRequested : ReviewState := "CHANGES_REQUESTED".
Definition Pending : ReviewState := "PENDING".

(** [enum ActionInput], [enum ActionOutput] *)
Definition RequiredApprovesAmount : string := "requiredApprovesAmount".
Definition IsApproved : string := "isApproved".

(** What the invocation reads from its environment and from the platform. *)
Record World : Type := {
  GITHUB_TOKEN : option string;
  GITHUB_REPOSITORY : option string;
  GITHUB_EVENT_PATH : option string;
  GITHUB_EVENT_NAME : option string;
  (** [getGithubPayload]: [readFile] then [JSON.parse]; either may throw *)
  getGithubPayload : string -> Thrown + WebhookPayload;
  getInput : string -> string;
  listReviews : PullsRequestConfig -> Thrown + list Review;
  listRequestedReviewers :
    PullsRequestConfig -> Thrown + list RequestedReviewer;
  (** when both requests fail: did [listReviews] fail first? *)
  listReviews_rejects_first : bool
}.

(** The callback of [postedReviews.data.forEach]. *)
Definition record_review (codeReviewProgress : JSMap ReviewState)
    (review : Review) : JSMap ReviewState :=
  match user_login review with
  | Some l => set l (state review) codeReviewProgress
  | None => codeReviewProgress
  end.

(** The callback of [requestedReviewers.data.users.forEach]. *)
Definition record_pending (codeReviewProgress : JSMap ReviewState)
    (reviewer : RequestedReviewer) : JSMap ReviewState :=
  set (requested_login reviewer) Pending codeReviewProgress.

(** The map after the first [forEach], starting from [m]. *)
Definition after_reviews (postedReviews : list Review)
    (m : JSMap ReviewState) : JSMap ReviewState :=
  fold_left record_review postedReviews m.

(** [codeReviewProgress] once both [forEach] loops have run. *)
Definition codeReviewProgress (postedReviews : list Review)
    (requestedReviewers : list RequestedReviewer) : JSMap ReviewState :=
  fold_left record_pending requestedReviewers
    (after_reviews postedReviews new_Map).

Definition reviewStates (m : JSMap ReviewState) : list ReviewState := values m.

Definition approvesAmount (m : JSMap ReviewState) : nat :=
  List.length
    (filter (fun reviewState => String.eqb reviewState Approved)
       (reviewStates m)).

Definition changesRequestedAmount (m : JSMap ReviewState) : nat :=
  List.length
    (filter (fun reviewState => String.eqb reviewState ChangesRequested)
       (reviewStates m)).

Definition isApproved (m : JSMap ReviewState)
    (requiredApprovesAmount : JSNumber) : bool :=
  ge (of_nat (approvesAmount m)) requiredApprovesAmount
  && Nat.eqb (changesRequestedAmount m) 0.

(** From [const reviewStates = ...] to the last [console.groupEnd()]. *)
Definition decide_and_report (m : JSMap ReviewState)
    (requiredApprovesAmount : JSNumber) : Action unit :=
  (if isApproved m requiredApprovesAmount
   then setOutput IsApproved "true"
   else setOutput IsApproved "false") ;;
  console_group [] ;;
  console_log [LogString "Code review summary:"] ;;
  console_group [] ;;
  console_log [LogMap m] ;;
  console_log [LogString "total `Approved` amount:";
               LogNumber (approvesAmount m)] ;;
  console_log [LogString "total `Change Requested` amount:";
               LogNumber (changesRequestedAmount m)] ;;
  console_groupEnd ;;
  console_log [LogString "Is pull requested approved?";
               LogBoolean (isApproved m requiredApprovesAmount)] ;;
  console_groupEnd.

Definition DEFAULT_AMOUNT : JSNumber := of_Z 1.

End ReviewPolicy.

(* ------------------------------------------------------------------ *)
(** *** src/unnamed/part_001 *)

Module ReviewPolicyRegex.
Import JS Runtime Github ReviewPolicy.
Local Open Scope action_scope.

Definition isAcceptableAction (action : option string) : bool :=
  match action with
  | Some a => String.eqb a "submitted" || String.eqb a "review_requested"
  | None => false
  end.

Definition getRequiredApprovesAmount (w : World) : Action JSNumber :=
  let approvesAmountFromConfig := getInput w RequiredApprovesAmount in
  if test_d12 approvesAmountFromConfig then
    let approvesAmount := parseInt10 approvesAmountFromConfig in
    if gt approvesAmount (of_Z 0) then ret approvesAmount
    else ret DEFAULT_AMOUNT
  else ret DEFAULT_AMOUNT.

(** The branch of [run] taken for an acceptable action. *)
Definition review (w : World) (githubEnv : GithubEnv) (pr : PullRequest)
    : Action unit :=
  requiredApprovesAmount <- getRequiredApprovesAmount w ;;
  let config := pullsRequestConfig (narrowed (repositoryPath githubEnv)) pr in
  postedReviews <- await (listReviews w config) ;;
  requestedReviewers <- await (listRequestedReviewers w config) ;;
  decide_and_report (codeReviewProgress postedReviews requestedReviewers)
    requiredApprovesAmount.

Definition run (w : World) : Action unit :=
  try_catch
    (let githubEnv :=
       {| token := GITHUB_TOKEN w;
          repositoryPath := GITHUB_REPOSITORY w;
          eventPath := GITHUB_EVENT_PATH w |} in
     if negb (doesGithubEnvExist githubEnv) then
       setFailed "GITHUB_TOKEN, GITHUB_REPOSITORY or GITHUB_EVENT doesn't set"
     else
       payload <- await (getGithubPayload w (narrowed (eventPath githubEnv))) ;;
       match pull_request payload with
       | None => setFailed "This event doesn't contain PR"
       | Some pr =>
           if isAcceptableAction (action payload) then review w githubEnv pr
           else
             info (interpolate (GITHUB_EVENT_NAME w) ++ "/"
                   ++ interpolate (action payload) ++ "/ isn't supported.")
       end)
    report_error.

End ReviewPolicyRegex.

(* ------------------------------------------------------------------ *)
(** *** src/unnamed/part_002 *)

Module ReviewPolicyNumber.
Import JS Runtime Github ReviewPolicy.
Local Open Scope action_scope.

Definition getRequiredApprovesAmount (w : World) : Action JSNumber :=
  let approvesAmountFromConfig := getInput w RequiredApprovesAmount in
  if String.eqb approvesAmountFromConfig "" then ret DEFAULT_AMOUNT
  else
    let approvesAmount := Number approvesAmountFromConfig in
    (if isNaN approvesAmount || le approvesAmount (of_Z 0)
     then setFailed "Incorrect value of the `requiredApprovesAmount` input"
     else ret tt) ;;
    ret approvesAmount.

Definition run (w : World) : Action unit :=
  try_catch
    (let githubEnv :=
       {| token := GITHUB_TOKEN w;
          repositoryPath := GITHUB_REPOSITORY w;
          eventPath := GITHUB_EVENT_PATH w |} in
     if negb (doesGithubEnvExist githubEnv) then
       setFailed "GITHUB_TOKEN, GITHUB_REPOSITORY or GITHUB_EVENT doesn't set"
     else
       payload <- await (getGithubPayload w (narrowed (eventPath githubEnv))) ;;
       match pull_request payload with
       | None => setFailed "This event doesn't contain PR"
       | Some pr =>
           requiredApprovesAmount <- getRequiredApprovesAmount w ;;
           let config :=
             pullsRequestConfig (narrowed (repositoryPath githubEnv)) pr in
           '(postedReviews, requestedReviewers) <-
             Promise_all2 (listReviews_rejects_first w)
                          (listReviews w config)
                          (listRequestedReviewers w config) ;;
           decide_and_report
             (codeReviewProgress postedReviews requestedReviewers)
             requiredApprovesAmount
       end)
    report_error.

End ReviewPolicyNumber.

(* ------------------------------------------------------------------ *)
(** *** src/src/main.ts *)

Module LeadReviewers.
Import JS Runtime Github.
Local Open Scope action_scope.

(** [enum ActionInput], [enum ActionOutput] *)
Definition Config : string := "config".
Definition AreLeadsInvited : string := "areLeadReviewersInvited".

(** The TypeErrors the engine can raise in [run]; their wording is the
    engine's. *)
Inductive TypeErrorKind : Type :=
| InOperatorOnPrimitive (k : string)
| CannotReadProperty (k : string)
| NotIterable
| NotAFunction (k : string).

Record World : Type := {
  GITHUB_TOKEN : option string;
  GITHUB_REPOSITORY : option string;
  GITHUB_EVENT_PATH : option string;
  (** [context.payload.pull_request], [context.repo], [context.ref] *)
  context_pull_request : option PullRequest;
  context_repo : Thrown + (string * option string);
  context_ref : option string;
  getInput : string -> string;
  (** [octokitClient.rest.repos.getContent({...config, path, ref}).data] *)
  getContent : PullsRequestConfig -> string -> option string -> Thrown + JSVal;
  (** [Buffer.from(content, encoding).toString()] *)
  Buffer_from_toString : JSVal -> JSVal -> Thrown + string;
  (** [parse] of the yaml package *)
  parse : string -> Thrown + JSVal;
  listRequestedReviewers :
    PullsRequestConfig -> Thrown + list RequestedReviewer;
  listReviews : PullsRequestConfig -> Thrown + list Review;
  (** when both requests fail: did [listRequestedReviewers] fail first? *)
  listRequestedReviewers_rejects_first : bool;
  TypeError_message : TypeErrorKind -> string
}.

Definition TypeError {A : Type} (w : World) (k : TypeErrorKind) : Action A :=
  throw (ThrownError (TypeError_message w k)).

(** ['k' in v] *)
Definition in_operator (w : World) (k : string) (v : JSVal) : Action bool :=
  match v with
  | JObject _ | JArray _ => ret (has_property k v)
  | _ => TypeError w (InOperatorOnPrimitive k)
  end.

(** [v.k] for a property name [k] that no prototype defines ("content",
    "encoding", "reviewers", "defaults"). *)
Definition get_property (w : World) (v : JSVal) (k : string) : Action JSVal :=
  match v with
  | JUndefined | JNull => TypeError w (CannotReadProperty k)
  | JObject props =>
      match List.find (fun kv => String.eqb (fst kv) k) props with
      | Some kv => ret (snd kv)
      | None => ret JUndefined
      end
  | _ => ret JUndefined
  end.

(** The values [for (const x of v)] goes through. *)
Definition iterate (w : World) (v : JSVal) : Action (list JSVal) :=
  match v with
  | JArray items => ret items
  | JString s => ret (map (fun c => JString (String c EmptyString)) (chars s))
  | _ => TypeError w NotIterable
  end.

(** [v.forEach(f)] *)
Definition value_forEach (w : World) (v : JSVal) (f : JSVal -> Action unit)
    : Action unit :=
  match v with
  | JArray items => forEach f items
  | JUndefined | JNull => TypeError w (CannotReadProperty "forEach")
  | _ => TypeError w (NotAFunction "forEach")
  end.

(** The callback of [postedReviews.data.forEach]. *)
Definition add_review_author (requestedReviewers : JSSet) (review : Review)
    : JSSet :=
  match user_login review with
  | Some l => add l requestedReviewers
  | None => requestedReviewers
  end.

(** [requestedReviewers] once both [forEach] loops have run. *)
Definition requestedReviewers (postedReviews : list Review)
    (pendingReviewers : list RequestedReviewer) : JSSet :=
  fold_left (fun s reviewer => add (requested_login reviewer) s)
    pendingReviewers
    (fold_left add_review_author postedReviews new_Set).

(** The [for ... of] loop with its [break]. *)
Fixpoint areLeadReviewersInvited (requestedReviewers : JSSet)
    (leadReviewers : list JSVal) : bool :=
  match leadReviewers with
  | [] => true
  | reviewer :: rest =>
      match find (fun requestedReviewer =>
                    strict_equal_string requestedReviewer reviewer)
                 requestedReviewers with
      | None => false
      | Some _ => areLeadReviewersInvited requestedReviewers rest
      end
  end.

(** From [const requestedReviewers = new Set()] to the end of the [try]. *)
Definition invite_check (w : World) (config : PullsRequestConfig)
    (leadReviewers : JSVal) : Action unit :=
  '(pendingReviewers, postedReviews) <-
    Promise_all2 (listRequestedReviewers_rejects_first w)
      (listRequestedReviewers w config) (listReviews w config) ;;
  let requested := requestedReviewers postedReviews pendingReviewers in
  items <- iterate w leadReviewers ;;
  let invited := areLeadReviewersInvited requested items in
  (if invited then setOutput AreLeadsInvited "true"
   else setOutput AreLeadsInvited "false") ;;
  console_group [LogString "Results:"] ;;
  console_group [LogString "Lead reviewers:"] ;;
  value_forEach w leadReviewers
    (fun reviewer => console_log [LogValue reviewer]) ;;
  console_groupEnd ;;
  console_group [LogString "All requested reviewers:"] ;;
  forEach (fun reviewer => console_log [LogString reviewer]) requested ;;
  console_groupEnd ;;
  console_log [LogString "Are the lead reviewers invited?";
               LogBoolean invited] ;;
  console_groupEnd.

(** The three [const] declarations that decode the file and read
    [reviewers.defaults]. *)
Definition decode_leadReviewers (w : World) (getContentResponse : JSVal)
    : Action JSVal :=
  content <- get_property w getContentResponse "content" ;;
  encoding <- get_property w getContentResponse "encoding" ;;
  decodedLeadReviewersConfig <- await (Buffer_from_toString w content encoding) ;;
  parsed <- await (parse w decodedLeadReviewersConfig) ;;
  reviewers <- get_property w parsed "reviewers" ;;
  get_property w reviewers "defaults".

(** From [const leadReviewersConfig = ...] to the end of the [try]. *)
Definition read_config (w : World) (config : PullsRequestConfig)
    (getContentResponse : JSVal) : Action unit :=
  leadReviewers <- decode_leadReviewers w getContentResponse ;;
  (if negb (instanceof_Array leadReviewers)
   then setFailed "Could not read lead reviewers from the config"
   else ret tt) ;;
  invite_check w config leadReviewers.

(** The body of the [try] from the [getContent] response on. *)
Definition check_config (w : World) (config : PullsRequestConfig)
    (getContentResponse : JSVal) : Action unit :=
  has_content <- in_operator w "content" getContentResponse ;;
  missing <-
    (if negb has_content then ret true
     else
       has_encoding <- in_operator w "encoding" getContentResponse ;;
       ret (negb has_encoding)) ;;
  (if (missing : bool) then setFailed "Can't process the config file"
   else ret tt) ;;
  read_config w config getContentResponse.

Definition run (w : World) : Action unit :=
  try_catch
    (let githubEnv :=
       {| token := GITHUB_TOKEN w;
          repositoryPath := GITHUB_REPOSITORY w;
          eventPath := GITHUB_EVENT_PATH w |} in
     if negb (doesGithubEnvExist githubEnv) then
       setFailed "GITHUB_TOKEN, GITHUB_REPOSITORY or GITHUB_EVENT doesn't set"
     else
       match context_pull_request w with
       | None => setFailed "This event doesn't contain PR"
       | Some pullRequest =>
           let configPath := getInput w Config in
           '(owner, repo) <- await (context_repo w) ;;
           let defaultRequestConfig :=
             {| owner := owner; repo := repo;
                pull_number := number pullRequest |} in
           getContentResponse <-
             await (getContent w defaultRequestConfig configPath
                      (context_ref w)) ;;
           check_config w defaultRequestConfig getContentResponse
       end)
    report_error.

End LeadReviewers.

(* ================================================================== *)
(** ** Notions the properties are stated with *)
(* ================================================================== *)

Module Notions.
Import Runtime Github ReviewPolicy.

(** The number of entries of the aggregate whose state is [st]. *)
Definition entries_in_state (st : ReviewState) (m : JS.JSMap ReviewState)
    : nat :=
  count_occ string_dec (map snd m) st.

(** [n] is at least the threshold [r]: never for NaN. *)
Definition at_least (n : nat) (r : JS.JSNumber) : Prop :=
  match r with
  | JS.JNaN => False
  | JS.JInf negative => negative = true
  | JS.JNum q => (q <= inject_Z (Z.of_nat n))%Q
  end.

(** [review] was posted by [k]. *)
Definition posted_by (k : string) (review : Review) : Prop :=
  user_login review = Some k.

(** [k] has an open review request. *)
Definition is_pending (k : string) (pending : list RequestedReviewer) : Prop :=
  In k (map requested_login pending).

(** The two passes of the aggregation as one sequence of entries. *)
Inductive Entry : Type :=
| Posted (review : Review)
| Requested (reviewer : RequestedReviewer).

Definition process (m : JS.JSMap ReviewState) (e : Entry)
    : JS.JSMap ReviewState :=
  match e with
  | Posted review => record_review m review
  | Requested reviewer => record_pending m reviewer
  end.

Definition entries (postedReviews : list Review)
    (requestedReviewers : list RequestedReviewer) : list Entry :=
  (map Posted postedReviews ++ map Requested requestedReviewers)%list.

(** The identity an entry writes to, if any. *)
Definition entry_identity (e : Entry) : option string :=
  match e with
  | Posted review => user_login review
  | Requested reviewer => Some (requested_login reviewer)
  end.

(** The state an entry writes. *)
Definition entry_state (e : Entry) : ReviewState :=
  match e with
  | Posted review => state review
  | Requested _ => Pending
  end.

(** Every map the aggregation goes through, from [m] on. *)
Fixpoint states_from (m : JS.JSMap ReviewState) (es : list Entry)
    : list (JS.JSMap ReviewState) :=
  m :: match es with
       | [] => []
       | e :: rest => states_from (process m e) rest
       end.

Definition aggregation_states (postedReviews : list Review)
    (requestedReviewers : list RequestedReviewer)
    : list (JS.JSMap ReviewState) :=
  states_from JS.new_Map (entries postedReviews requestedReviewers).

(** At most one state per identity. *)
Definition functional (m : JS.JSMap ReviewState) : Prop :=
  forall k s1 s2, In (k, s1) m -> In (k, s2) m -> s1 = s2.

(** [k]'s entry in the aggregate is the state of [k]'s last posted review. *)
Definition last_review_wins (postedReviews : list Review)
    (requestedReviewers : list RequestedReviewer) (k : string) : Prop :=
  forall pre r post,
    postedReviews = (pre ++ r :: post)%list ->
    posted_by k r ->
    (forall r', In r' post -> ~ posted_by k r') ->
    JS.get k (codeReviewProgress postedReviews requestedReviewers)
    = Some (state r).

(** [s] is a positive integer written in decimal digits. *)
Definition is_positive_integer (s : string) : bool :=
  negb (String.eqb s EmptyString)
  && forallb JS.is_digit (JS.chars s)
  && (0 <? JS.digits_value 10 JS.digit_value (JS.chars s))%Z.

(** An input that is not a positive integer gives the default threshold. *)
Definition malformed_input_defaults
    (getRequiredApprovesAmount : World -> Action JS.JSNumber) (w : World)
    : Prop :=
  is_positive_integer (getInput w RequiredApprovesAmount) = false ->
  outcome (getRequiredApprovesAmount w) = inr DEFAULT_AMOUNT.

(** [s] contains a decimal digit. *)
Definition has_digit (s : string) : Prop :=
  exists c, In c (JS.chars s) /\ JS.is_digit c = true.

(** The invocation ends normally, publishes nothing and signals no
    failure. *)
Definition quiet (c : Action unit) : Prop :=
  outcome c = inr tt /\
  forall ev, In ev (trace c) -> is_published ev = false /\ is_failure ev = false.

(** A trigger whose action is not supported leaves the invocation quiet. *)
Definition unsupported_action_is_quiet (w : World) : Prop :=
  forall payload,
    getGithubPayload w (narrowed (GITHUB_EVENT_PATH w)) = inr payload ->
    ReviewPolicyRegex.isAcceptableAction (action payload) = false ->
    quiet (ReviewPolicyRegex.run w).

(** The response has a shape ['k' in response] accepts. *)
Definition is_object_or_array (v : JS.JSVal) : Prop :=
  match v with
  | JS.JObject _ | JS.JArray _ => True
  | _ => False
  end.

Definition review_by (k : option string) (st : ReviewState) : Review :=
  {| user := option_map (fun l => {| login := Some l |}) k; state := st |}.

Definition request_of (k : string) : RequestedReviewer :=
  {| requested_login := k |}.

End Notions.

(* ================================================================== *)
(** ** Concrete invocations *)
(* ================================================================== *)

Module Scenarios.
Import Runtime Github Notions.

(** An approval-policy invocation with a complete environment. *)
Definition approval_world (event_name : string) (input : string)
    (payload : WebhookPayload) (reviews : list Review)
    (pending : list RequestedReviewer) : ReviewPolicy.World :=
  {| ReviewPolicy.GITHUB_TOKEN := Some "ghs_token";
     ReviewPolicy.GITHUB_REPOSITORY :=
       Some "saritasa-nest/saritasa-pr-approved-action";
     ReviewPolicy.GITHUB_EVENT_PATH := Some "/github/workflow/event.json";
     ReviewPolicy.GITHUB_EVENT_NAME := Some event_name;
     ReviewPolicy.getGithubPayload := fun _ => inr payload;
     ReviewPolicy.getInput :=
       fun name =>
         if String.eqb name ReviewPolicy.RequiredApprovesAmount
         then input else EmptyString;
     ReviewPolicy.listReviews := fun _ => inr reviews;
     ReviewPolicy.listRequestedReviewers := fun _ => inr pending;
     ReviewPolicy.listReviews_rejects_first := true |}.

(** A review was submitted on pull request 7; the input is [input]. *)
Definition submitted_with_input (input : string) : ReviewPolicy.World :=
  approval_world "pull_request_review" input
    {| action := Some "submitted"; pull_request := Some {| number := 7 |} |}
    [review_by (Some "alice") ReviewPolicy.Approved] [].

(** An issue was opened: the payload has no pull request. *)
Definition issue_opened : ReviewPolicy.World :=
  approval_world "issues" EmptyString
    {| action := Some "opened"; pull_request := None |} [] [].

(** Pull request 7 was closed. *)
Definition pull_request_closed : ReviewPolicy.World :=
  approval_world "pull_request" EmptyString
    {| action := Some "closed"; pull_request := Some {| number := 7 |} |}
    [review_by (Some "alice") ReviewPolicy.Approved] [].

(** A lead-reviewer invocation on pull request 7: [getContent] answers
    [response], the decoded file parses to [parsed], and lead1 has a
    pending review request. [Buffer.from] takes a string as it is (no
    scenario asks for another encoding than utf8) and rejects a missing
    first argument. *)
Definition lead_world (response parsed : JS.JSVal) : LeadReviewers.World :=
  {| LeadReviewers.GITHUB_TOKEN := Some "ghs_token";
     LeadReviewers.GITHUB_REPOSITORY :=
       Some "saritasa-nest/saritasa-pr-approved-action";
     LeadReviewers.GITHUB_EVENT_PATH := Some "/github/workflow/event.json";
     LeadReviewers.context_pull_request := Some {| number := 7 |};
     LeadReviewers.context_repo :=
       inr ("saritasa-nest", Some "saritasa-pr-approved-action");
     LeadReviewers.context_ref := Some "refs/pull/7/merge";
     LeadReviewers.getInput := fun _ => ".github/test-config.yml";
     LeadReviewers.getContent := fun _ _ _ => inr response;
     LeadReviewers.Buffer_from_toString :=
       fun content encoding =>
         match content with
         | JS.JString s => inr s
         | _ => inl (ThrownError "The first argument must be of type string")
         end;
     LeadReviewers.parse := fun _ => inr parsed;
     LeadReviewers.listRequestedReviewers := fun _ => inr [request_of "lead1"];
     LeadReviewers.listReviews := fun _ => inr [];
     LeadReviewers.listRequestedReviewers_rejects_first := true;
     LeadReviewers.TypeError_message :=
       fun k =>
         match k with
         | LeadReviewers.InOperatorOnPrimitive _ =>
             "Cannot use 'in' operator"
         | LeadReviewers.CannotReadProperty _ =>
             "Cannot read properties of undefined"
         | LeadReviewers.NotIterable => "leadReviewers is not iterable"
         | LeadReviewers.NotAFunction _ =>
             "leadReviewers.forEach is not a function"
         end |}.

(** The configured path is a directory: the response is a listing. *)
Definition directory_listing : JS.JSVal :=
  JS.JArray [JS.JObject [("type", JS.JString "file");
                         ("name", JS.JString "test-config.yml")]].

(** A file object without its [encoding] field. *)
Definition file_without_encoding : JS.JSVal :=
  JS.JObject [("type", JS.JString "file");
              ("content", JS.JString "reviewers: {defaults: [lead1]}")].

(** A complete file object. *)
Definition file_response : JS.JSVal :=
  JS.JObject [("type", JS.JString "file");
              ("encoding", JS.JString "utf8");
              ("content", JS.JString "reviewers: {defaults: lead1}")].

(** [reviewers: {defaults: [lead1]}] *)
Definition config_with_list : JS.JSVal :=
  JS.JObject [("reviewers",
               JS.JObject [("defaults", JS.JArray [JS.JString "lead1"])])].

(** [reviewers: {defaults: lead1}]: a scalar where the list is expected. *)
Definition config_with_scalar : JS.JSVal :=
  JS.JObject [("reviewers", JS.JObject [("defaults", JS.JString "lead1")])].

End Scenarios.

(* ================================================================== *)
(** ** What an invocation leaves behind *)
(* ================================================================== *)

Module Observations.
Import Runtime Github Notions.

(** The outputs a trace publishes, in order, as (name, value). *)
Definition published (t : list Event) : list (string * string) :=
  flat_map (fun ev => match ev with
                      | SetOutput name value => [(name, value)]
                      | _ => []
                      end) t.

(** The failure signals a trace raises, in order. *)
Definition failures (t : list Event) : list string :=
  flat_map (fun ev => match ev with
                      | SetFailed message => [message]
                      | _ => []
                      end) t.

(** The string an output carries for a verdict. *)
Definition boolean_string (b : bool) : string :=
  if b then "true" else "false".

Definition has_slash (s : string) : Prop := In "/"%char (JS.chars s).

(** [k] has posted a review or has an open review request. *)
Definition invited (postedReviews : list Review)
    (requestedReviewers : list RequestedReviewer) (k : string) : Prop :=
  (exists r, In r postedReviews /\ posted_by k r)
  \/ is_pending k requestedReviewers.

(** The three environment variables are set. *)
Definition environment_is_set (token repositoryPath eventPath : option string)
    : Prop :=
  token <> None /\ repositoryPath <> None /\ eventPath <> None.

(** A configured lead reviewer is a string and a member of the set. *)
Definition lead_is_invited (requestedReviewers : JS.JSSet) (v : JS.JSVal)
    : bool :=
  match v with
  | JS.JString s => JS.has s requestedReviewers
  | _ => false
  end.

Definition ENVIRONMENT_MESSAGE : string :=
  "GITHUB_TOKEN, GITHUB_REPOSITORY or GITHUB_EVENT doesn't set".

Definition PULL_REQUEST_MESSAGE : string := "This event doesn't contain PR".

Definition THRESHOLD_MESSAGE : string :=
  "Incorrect value of the `requiredApprovesAmount` input".

(** The request both approval variants build for pull request [pr]. *)
Definition request_of_world (w : ReviewPolicy.World) (pr : PullRequest)
    : PullsRequestConfig :=
  pullsRequestConfig (narrowed (ReviewPolicy.GITHUB_REPOSITORY w)) pr.

(** The threshold the Number variant goes on with for input [s], and the
    failure signals it raises while reading it. *)
Definition number_threshold (s : string) : JS.JSNumber :=
  if String.eqb s EmptyString then ReviewPolicy.DEFAULT_AMOUNT
  else JS.Number s.

Definition number_threshold_failures (s : string) : list string :=
  if String.eqb s EmptyString then []
  else if JS.isNaN (JS.Number s) || JS.le (JS.Number s) (JS.of_Z 0)
       then [THRESHOLD_MESSAGE] else [].

(** Both review requests of an approval invocation were answered. *)
Definition fetched (w : ReviewPolicy.World) (pr : PullRequest)
    (reviews : list Review) (pending : list RequestedReviewer) : Prop :=
  ReviewPolicy.listReviews w (request_of_world w pr) = inr reviews /\
  ReviewPolicy.listRequestedReviewers w (request_of_world w pr) = inr pending.

(** The event of an approval invocation is readable and carries [pr]. *)
Definition event_is (w : ReviewPolicy.World) (payload : WebhookPayload)
    (pr : PullRequest) : Prop :=
  environment_is_set (ReviewPolicy.GITHUB_TOKEN w)
    (ReviewPolicy.GITHUB_REPOSITORY w) (ReviewPolicy.GITHUB_EVENT_PATH w) /\
  ReviewPolicy.getGithubPayload w
    (narrowed (ReviewPolicy.GITHUB_EVENT_PATH w)) = inr payload /\
  pull_request payload = Some pr.

(** A computation that publishes nothing and signals no failure. *)
Definition logs_only {A : Type} (c : Action A) : Prop :=
  published (trace c) = [] /\ failures (trace c) = [].

(** The configuration file of a lead-reviewer invocation was fetched:
    [config] is the request built from the context, [response] the body. *)
Definition config_fetched (w : LeadReviewers.World)
    (config : PullsRequestConfig) (response : JS.JSVal) : Prop :=
  environment_is_set (LeadReviewers.GITHUB_TOKEN w)
    (LeadReviewers.GITHUB_REPOSITORY w) (LeadReviewers.GITHUB_EVENT_PATH w) /\
  exists pr o r,
    LeadReviewers.context_pull_request w = Some pr /\
    LeadReviewers.context_repo w = inr (o, r) /\
    config = {| owner := o; repo := r; pull_number := number pr |} /\
    LeadReviewers.getContent w config
      (LeadReviewers.getInput w LeadReviewers.Config)
      (LeadReviewers.context_ref w) = inr response.

(** Both review requests of a lead-reviewer invocation were answered. *)
Definition reviewers_fetched (w : LeadReviewers.World)
    (config : PullsRequestConfig) (posted : list Review)
    (pending : list RequestedReviewer) : Prop :=
  LeadReviewers.listRequestedReviewers w config = inr pending /\
  LeadReviewers.listReviews w config = inr posted.

(** The summary main.ts prints after the output. *)
Definition lead_summary (leadReviewers : list JS.JSVal)
    (requested : JS.JSSet) (verdict : bool) : list Event :=
  (ConsoleGroup [LogString "Results:"]
   :: ConsoleGroup [LogString "Lead reviewers:"]
   :: map (fun reviewer => ConsoleLog [LogValue reviewer]) leadReviewers
   ++ ConsoleGroupEnd
   :: ConsoleGroup [LogString "All requested reviewers:"]
   :: map (fun reviewer => ConsoleLog [LogString reviewer]) requested
   ++ [ConsoleGroupEnd;
       ConsoleLog [LogString "Are the lead reviewers invited?";
                   LogBoolean verdict];
       ConsoleGroupEnd])%list.

(** The decimal value of a digit string. *)
Definition decimal_value (s : string) : Z :=
  JS.digits_value 10 JS.digit_value (JS.chars s).

End Observations.

Module Cases.
Import Runtime Github Notions.

(** The event file cannot be read. *)
Definition unreadable_event : ReviewPolicy.World :=
  {| ReviewPolicy.GITHUB_TOKEN := Some "ghs_token";
     ReviewPolicy.GITHUB_REPOSITORY :=
       Some "saritasa-nest/saritasa-pr-approved-action";
     ReviewPolicy.GITHUB_EVENT_PATH := Some "/github/workflow/event.json";
     ReviewPolicy.GITHUB_EVENT_NAME := Some "pull_request_review";
     ReviewPolicy.getGithubPayload := fun _ => inl (ThrownError "ENOENT");
     ReviewPolicy.getInput := fun _ => EmptyString;
     ReviewPolicy.listReviews := fun _ => inr [];
     ReviewPolicy.listRequestedReviewers := fun _ => inr [];
     ReviewPolicy.listReviews_rejects_first := true |}.

(** A review was submitted on pull request 7, which nobody has reviewed
    and nobody is asked to review; the required-approvals input is "0". *)
Definition zero_threshold : ReviewPolicy.World :=
  Scenarios.approval_world "pull_request_review" "0"
    {| action := Some "submitted"; pull_request := Some {| number := 7 |} |}
    [] [].

(** A lead-reviewer invocation with a complete file object whose decoded
    content lists lead1 and lead2; only lead1 has a review request. *)
Definition two_leads : LeadReviewers.World :=
  Scenarios.lead_world Scenarios.file_response
    (JS.JObject
       [("reviewers",
         JS.JObject [("defaults",
                      JS.JArray [JS.JString "lead1"; JS.JString "lead2"])])]).

Definition two_leads_config : PullsRequestConfig :=
  {| owner := "saritasa-nest";
     repo := Some "saritasa-pr-approved-action";
     pull_number := 7 |}.

(** The configuration file is empty: the YAML parser gives null. *)
Definition empty_document : LeadReviewers.World :=
  Scenarios.lead_world Scenarios.file_response JS.JNull.

(** The configuration file has a [reviewers] mapping without [defaults]. *)
Definition no_defaults : LeadReviewers.World :=
  Scenarios.lead_world Scenarios.file_response
    (JS.JObject [("reviewers", JS.JObject [("groups", JS.JArray [])])]).

(** A review was submitted on pull request 7 with the input "-1"; the
    platform refuses the list of reviews and answers the other request. *)
Definition reviews_unavailable : ReviewPolicy.World :=
  {| ReviewPolicy.GITHUB_TOKEN := Some "ghs_token";
     ReviewPolicy.GITHUB_REPOSITORY :=
       Some "saritasa-nest/saritasa-pr-approved-action";
     ReviewPolicy.GITHUB_EVENT_PATH := Some "/github/workflow/event.json";
     ReviewPolicy.GITHUB_EVENT_NAME := Some "pull_request_review";
     ReviewPolicy.getGithubPayload :=
       fun _ => inr {| action := Some "submitted";
                       pull_request := Some {| number := 7 |} |};
     ReviewPolicy.getInput := fun _ => "-1";
     ReviewPolicy.listReviews := fun _ => inl (ThrownError "Bad credentials");
     ReviewPolicy.listRequestedReviewers := fun _ => inr [];
     ReviewPolicy.listReviews_rejects_first := true |}.

Definition submitted_7 : WebhookPayload :=
  {| action := Some "submitted"; pull_request := Some {| number := 7 |} |}.

End Cases.

(* ================================================================== *)
(** ** Facts about [Map] and [Set] *)
(* ================================================================== *)

Section MapFacts.
Context {V : Type}.
Implicit Types (m : JS.JSMap V) (k : string) (v : V).

Lemma get_set_same k v m : JS.get k (JS.set k v m) = Some v.
Proof.
  induction m as [|[k' v'] m IH]; simpl.
  - now rewrite String.eqb_refl.
  - destruct (String.eqb k' k) eqn:E; simpl.
    + now rewrite String.eqb_refl.
    + now rewrite E.
Qed.

Lemma get_set_other k k' v m :
  k <> k' -> JS.get k' (JS.set k v m) = JS.get k' m.
Proof.
  intros Hne. induction m as [|[k0 v0] m IH]; simpl.
  - destruct (String.eqb_spec k k'); [contradiction | reflexivity].
  - destruct (String.eqb_spec k0 k) as [->|Hk]; simpl.
    + destruct (String.eqb_spec k k'); [contradiction | reflexivity].
    + now rewrite IH.
Qed.

Lemma keys_set_present k v m :
  In k (JS.keys m) -> JS.keys (JS.set k v m) = JS.keys m.
Proof.
  induction m as [|[k0 v0] m IH]; simpl; [tauto|].
  intros [->|Hin].
  - now rewrite String.eqb_refl.
  - destruct (String.eqb_spec k0 k) as [->|Hk]; simpl; [reflexivity|].
    f_equal. now apply IH.
Qed.

Lemma keys_set_absent k v m :
  ~ In k (JS.keys m) -> JS.keys (JS.set k v m) = (JS.keys m ++ [k])%list.
Proof.
  induction m as [|[k0 v0] m IH]; simpl; [reflexivity|].
  intros Hnin.
  destruct (String.eqb_spec k0 k) as [->|Hk]; [tauto|].
  simpl. f_equal. apply IH. tauto.
Qed.

Lemma NoDup_keys_set k v m :
  NoDup (JS.keys m) -> NoDup (JS.keys (JS.set k v m)).
Proof.
  intros Hnd. destruct (in_dec string_dec k (JS.keys m)) as [Hin|Hnin].
  - now rewrite keys_set_present.
  - rewrite keys_set_absent by assumption.
    apply NoDup_app; repeat split; try assumption.
    + constructor; [simpl; tauto | constructor].
    + intros x Hx [<-|[]]. contradiction.
Qed.

Lemma NoDup_keys_functional m :
  NoDup (JS.keys m) ->
  forall k v1 v2, In (k, v1) m -> In (k, v2) m -> v1 = v2.
Proof.
  induction m as [|[k0 v0] m IH]; simpl; [tauto|].
  intros Hnd k v1 v2 H1 H2. inversion Hnd as [|? ? Hnin Hnd']; subst.
  assert (Hkeys : forall v, In (k0, v) m -> False).
  { intros v Hv. apply Hnin. apply (in_map fst) in Hv. exact Hv. }
  destruct H1 as [E1|H1], H2 as [E2|H2].
  - congruence.
  - inversion E1; subst. exfalso; eauto.
  - inversion E2; subst. exfalso; eauto.
  - eauto.
Qed.
End MapFacts.

Section SetFacts.
Implicit Types (s : JS.JSSet) (x : string).

Lemma has_In x s : JS.has x s = true <-> In x s.
Proof.
  unfold JS.has. rewrite existsb_exists. split.
  - intros [y [Hy E]]. apply String.eqb_eq in E. now subst.
  - intros H. exists x. split; [assumption | apply String.eqb_refl].
Qed.

Lemma In_add x y s : In y (JS.add x s) <-> y = x \/ In y s.
Proof.
  unfold JS.add. destruct (JS.has x s) eqn:E.
  - apply has_In in E. split; [tauto | intros [->|]; assumption].
  - rewrite in_app_iff. simpl. intuition congruence.
Qed.

Lemma NoDup_add x s : NoDup s -> NoDup (JS.add x s).
Proof.
  intros Hnd. unfold JS.add. destruct (JS.has x s) eqn:E; [assumption|].
  assert (Hnin : ~ In x s) by (rewrite <- has_In; congruence).
  apply NoDup_app; repeat split; try assumption.
  - constructor; [simpl; tauto | constructor].
  - intros y Hy [<-|[]]. contradiction.
Qed.
End SetFacts.

(* ================================================================== *)
(** ** The review aggregate *)
(* ================================================================== *)

Section Aggregate.
Import Runtime Github ReviewPolicy Notions.
Implicit Types (m : JS.JSMap ReviewState) (k : string).

Lemma after_reviews_app pre post m :
  after_reviews (pre ++ post) m = after_reviews post (after_reviews pre m).
Proof. apply fold_left_app. Qed.

Lemma after_reviews_cons review rest m :
  after_reviews (review :: rest) m = after_reviews rest (record_review m review).
Proof. reflexivity. Qed.

(** Reviews by others leave [k]'s entry alone. *)
Lemma after_reviews_untouched k reviews : forall m,
  (forall r, In r reviews -> ~ posted_by k r) ->
  JS.get k (after_reviews reviews m) = JS.get k m.
Proof.
  induction reviews as [|r rest IH]; intros m Hnone; [reflexivity|].
  rewrite after_reviews_cons, IH by (intros; apply Hnone; now right).
  unfold record_review. destruct (user_login r) as [l|] eqn:El; [|reflexivity].
  apply get_set_other. intros ->. apply (Hnone r); [now left | exact El].
Qed.

(** The review pass ends with the state of [k]'s last review. *)
Lemma after_reviews_last k pre r post m :
  posted_by k r ->
  (forall r', In r' post -> ~ posted_by k r') ->
  JS.get k (after_reviews (pre ++ r :: post) m) = Some (state r).
Proof.
  intros Hr Hpost.
  rewrite after_reviews_app, after_reviews_cons, after_reviews_untouched
    by assumption.
  unfold record_review. rewrite Hr. apply get_set_same.
Qed.

(** What the pending pass does to [k]'s entry. *)
Lemma pending_pass_get k pending : forall m,
  JS.get k (fold_left record_pending pending m) =
  if existsb (String.eqb k) (map requested_login pending)
  then Some Pending else JS.get k m.
Proof.
  induction pending as [|p rest IH]; intros m; [reflexivity|].
  simpl. rewrite IH. unfold record_pending.
  destruct (existsb (String.eqb k) (map requested_login rest));
    [now rewrite orb_true_r|].
  rewrite orb_false_r.
  destruct (String.eqb_spec k (requested_login p)) as [->|Hne].
  - apply get_set_same.
  - apply get_set_other. congruence.
Qed.

Lemma is_pending_existsb k pending :
  is_pending k pending <->
  existsb (String.eqb k) (map requested_login pending) = true.
Proof.
  unfold is_pending. rewrite existsb_exists. split.
  - intros H. exists k. split; [assumption | apply String.eqb_refl].
  - intros [y [Hy E]]. apply String.eqb_eq in E. now subst.
Qed.

Lemma pending_get k reviews pending :
  is_pending k pending ->
  JS.get k (codeReviewProgress reviews pending) = Some Pending.
Proof.
  intros H. unfold codeReviewProgress. rewrite pending_pass_get.
  apply is_pending_existsb in H. now rewrite H.
Qed.

Lemma not_pending_get k reviews pending :
  ~ is_pending k pending ->
  JS.get k (codeReviewProgress reviews pending) =
  JS.get k (after_reviews reviews JS.new_Map).
Proof.
  intros H. unfold codeReviewProgress. rewrite pending_pass_get.
  rewrite is_pending_existsb in H.
  now destruct (existsb (String.eqb k) (map requested_login pending)).
Qed.

(** The aggregation as one fold over the entries. *)
Lemma codeReviewProgress_entries reviews pending :
  codeReviewProgress reviews pending =
  fold_left process (entries reviews pending) JS.new_Map.
Proof.
  unfold codeReviewProgress, after_reviews, entries.
  rewrite fold_left_app.
  assert (Hr : forall l m, fold_left process (map Posted l) m
                           = fold_left record_review l m).
  { induction l as [|x l IH]; intros m; [reflexivity | apply IH]. }
  assert (Hp : forall l m, fold_left process (map Requested l) m
                           = fold_left record_pending l m).
  { induction l as [|x l IH]; intros m; [reflexivity | apply IH]. }
  now rewrite Hr, Hp.
Qed.

Lemma last_state_from es : forall m,
  In (fold_left process es m) (states_from m es).
Proof.
  induction es as [|e rest IH]; intros m; simpl; [now left|].
  right. apply IH.
Qed.

Lemma NoDup_keys_process m e :
  NoDup (JS.keys m) -> NoDup (JS.keys (process m e)).
Proof.
  intros H. destruct e as [r|p]; simpl.
  - unfold record_review. destruct (user_login r); [|assumption].
    now apply NoDup_keys_set.
  - now apply NoDup_keys_set.
Qed.

Lemma NoDup_keys_states es : forall m,
  NoDup (JS.keys m) ->
  forall m', In m' (states_from m es) -> NoDup (JS.keys m').
Proof.
  induction es as [|e rest IH]; intros m Hm m' Hin; simpl in Hin.
  - destruct Hin as [<-|[]]. assumption.
  - destruct Hin as [<-|Hin]; [assumption|].
    apply (IH (process m e)); [now apply NoDup_keys_process | assumption].
Qed.

(** Writing an entry for [k]: the value is replaced in place when [k]
    has one, appended otherwise; [k] then reads the new state. *)
Lemma process_replaces m e k :
  entry_identity e = Some k ->
  (In k (JS.keys m) -> JS.keys (process m e) = JS.keys m) /\
  (~ In k (JS.keys m) -> JS.keys (process m e) = (JS.keys m ++ [k])%list) /\
  (exists s, JS.get k (process m e) = Some s).
Proof.
  intros He. destruct e as [r|p]; simpl in *.
  - unfold record_review. rewrite He. repeat split.
    + apply keys_set_present.
    + apply keys_set_absent.
    + eexists. apply get_set_same.
  - inversion He; subst. unfold record_pending. repeat split.
    + apply keys_set_present.
    + apply keys_set_absent.
    + eexists. apply get_set_same.
Qed.
End Aggregate.

Section AggregateClaims.
Import Runtime Github ReviewPolicy Notions.

(** C2. A reviewer who posted a review (of any state) and is also in the
    pending-review-requests list is mapped to Pending by the aggregate:
    the pending pass runs after the review pass and overwrites. *)
Theorem pending_overrides_review :
  forall (reviews : list Review) (pending : list RequestedReviewer)
         (k : string),
    (exists r, In r reviews /\ posted_by k r) ->
    is_pending k pending ->
    JS.get k (codeReviewProgress reviews pending) = Some Pending.
Proof. intros reviews pending k _ H. now apply pending_get. Qed.

Lemma pending_overrides_review_witness :
  (exists r, In r [review_by (Some "alice") Approved]
             /\ posted_by "alice" r) /\
  is_pending "alice" [request_of "alice"] /\
  JS.get "alice"
    (codeReviewProgress [review_by (Some "alice") Approved]
                        [request_of "alice"]) = Some Pending.
Proof.
  assert (H1 : exists r, In r [review_by (Some "alice") Approved]
                         /\ posted_by "alice" r).
  { exists (review_by (Some "alice") Approved).
    split; [left; reflexivity | reflexivity]. }
  assert (H2 : is_pending "alice" [request_of "alice"])
    by (left; reflexivity).
  split; [exact H1 | split; [exact H2|]].
  exact (pending_overrides_review _ _ _ H1 H2).
Defined.

(** C3, as stated, fails for a reviewer who is also in the pending list:
    reviews [Approved, ChangesRequested] by alice with a pending request
    for alice give Pending, not ChangesRequested. *)
Lemma last_review_wins_fails_when_pending :
  ~ last_review_wins
      [review_by (Some "alice") Approved;
       review_by (Some "alice") ChangesRequested]
      [request_of "alice"] "alice".
Proof.
  intros H.
  specialize (H [review_by (Some "alice") Approved]
                (review_by (Some "alice") ChangesRequested) []
                eq_refl eq_refl (fun _ F => match F with end)).
  vm_compute in H. discriminate H.
Qed.

(** C3, amended. For a reviewer with posted reviews who is not in the
    pending list, the aggregate holds the state of that reviewer's last
    review in sequence order; the map after the review pass holds it for
    every reviewer. *)
Theorem last_review_wins_unless_pending :
  forall (reviews : list Review) (pending : list RequestedReviewer)
         (k : string),
    (forall pre r post,
        reviews = (pre ++ r :: post)%list ->
        posted_by k r ->
        (forall r', In r' post -> ~ posted_by k r') ->
        JS.get k (after_reviews reviews JS.new_Map) = Some (state r)) /\
    (~ is_pending k pending -> last_review_wins reviews pending k).
Proof.
  intros reviews pending k. split.
  - intros pre r post -> Hr Hpost. now apply after_reviews_last.
  - intros Hnp pre r post -> Hr Hpost.
    rewrite not_pending_get by assumption. now apply after_reviews_last.
Qed.

Lemma last_review_wins_unless_pending_witness :
  ~ is_pending "alice" [request_of "bob"] /\
  JS.get "alice"
    (codeReviewProgress
       [review_by (Some "alice") Approved;
        review_by (Some "alice") ChangesRequested]
       [request_of "bob"]) = Some ChangesRequested.
Proof.
  assert (Hnp : ~ is_pending "alice" [request_of "bob"]).
  { intros [H|[]]. discriminate H. }
  split; [exact Hnp|].
  exact (proj2 (last_review_wins_unless_pending
                  [review_by (Some "alice") Approved;
                   review_by (Some "alice") ChangesRequested]
                  [request_of "bob"] "alice") Hnp
           [review_by (Some "alice") Approved]
           (review_by (Some "alice") ChangesRequested) []
           eq_refl eq_refl (fun _ F => match F with end)).
Defined.

(** C8. A posted review whose reviewer identity is null or missing is
    skipped: the aggregate is the one built from the sequence without
    that review. *)
Theorem null_identity_review_is_skipped :
  forall (pre post : list Review) (r : Review)
         (pending : list RequestedReviewer),
    user_login r = None ->
    codeReviewProgress (pre ++ r :: post) pending
    = codeReviewProgress (pre ++ post) pending.
Proof.
  intros pre post r pending Hr. unfold codeReviewProgress.
  rewrite !after_reviews_app, after_reviews_cons.
  unfold record_review. now rewrite Hr.
Qed.

Lemma null_identity_review_is_skipped_witness :
  user_login (review_by None ChangesRequested) = None /\
  codeReviewProgress
    ([review_by (Some "alice") Approved]
     ++ review_by None ChangesRequested
     :: [review_by (Some "bob") Approved])
    [request_of "carol"]
  = codeReviewProgress
      ([review_by (Some "alice") Approved]
       ++ [review_by (Some "bob") Approved])
      [request_of "carol"].
Proof.
  split; [reflexivity|].
  apply (null_identity_review_is_skipped
           [review_by (Some "alice") Approved]
           [review_by (Some "bob") Approved]
           (review_by None ChangesRequested)
           [request_of "carol"]).
  reflexivity.
Defined.

(** Entries for other identities leave [k]'s entry alone. *)
Lemma process_untouched (k : string) (post : list Entry) : forall m,
  (forall e, In e post -> entry_identity e <> Some k) ->
  JS.get k (fold_left process post m) = JS.get k m.
Proof.
  induction post as [|e rest IH]; intros m Hnone; [reflexivity|].
  simpl. rewrite IH by (intros; apply Hnone; now right).
  assert (He : entry_identity e <> Some k) by (apply Hnone; now left).
  destruct e as [r|p]; simpl in *.
  - unfold record_review. destruct (user_login r) as [l|]; [|reflexivity].
    apply get_set_other. congruence.
  - apply get_set_other. congruence.
Qed.

(** An entry for [k] stores its state under [k] and touches nobody else. *)
Lemma process_writes (m : JS.JSMap ReviewState) (e : Entry) (k : string) :
  entry_identity e = Some k ->
  JS.get k (process m e) = Some (entry_state e) /\
  (forall k', k' <> k -> JS.get k' (process m e) = JS.get k' m).
Proof.
  intros He. destruct e as [r|p]; simpl in *.
  - unfold record_review. rewrite He. split; [apply get_set_same|].
    intros k' Hne. apply get_set_other. congruence.
  - inversion He; subst. split; [apply get_set_same|].
    intros k' Hne. apply get_set_other. congruence.
Qed.

(** C9. Every map the aggregation goes through, the final one included,
    holds at most one state per reviewer identity. Processing one more
    review or pending entry for an identity stores that entry's state
    under the identity, in place of the previous one when there is one
    (the keys and the size stay as they are), and leaves every other
    identity's state alone; so the final state of an identity is the one
    written by the last entry for it (last write wins). The set of
    invited identities of main.ts has no duplicates either. *)
Theorem one_state_per_identity :
  forall (reviews : list Review) (pending : list RequestedReviewer),
    (forall m, In m (aggregation_states reviews pending) ->
               NoDup (JS.keys m) /\ functional m) /\
    In (codeReviewProgress reviews pending)
       (aggregation_states reviews pending) /\
    (forall m e k,
        entry_identity e = Some k ->
        In k (JS.keys m) ->
        JS.keys (process m e) = JS.keys m /\
        List.length (process m e) = List.length m) /\
    (forall m e k,
        entry_identity e = Some k ->
        JS.get k (process m e) = Some (entry_state e) /\
        (forall k', k' <> k -> JS.get k' (process m e) = JS.get k' m)) /\
    (forall pre e post k,
        entries reviews pending = (pre ++ e :: post)%list ->
        entry_identity e = Some k ->
        (forall e', In e' post -> entry_identity e' <> Some k) ->
        JS.get k (codeReviewProgress reviews pending)
        = Some (entry_state e)) /\
    NoDup (LeadReviewers.requestedReviewers reviews pending).
Proof.
  intros reviews pending.
  split; [|split; [|split; [|split; [|split]]]].
  - intros m Hm.
    assert (Hnd : NoDup (JS.keys m)).
    { apply (NoDup_keys_states (entries reviews pending) JS.new_Map);
        [constructor | assumption]. }
    split; [exact Hnd|].
    unfold functional. now apply NoDup_keys_functional.
  - rewrite codeReviewProgress_entries. apply last_state_from.
  - intros m e k He Hin. split.
    + now apply (proj1 (process_replaces m e k He)).
    + rewrite <- (length_map fst (process m e)), <- (length_map fst m).
      change (List.length (JS.keys (process m e)) = List.length (JS.keys m)).
      f_equal. now apply (proj1 (process_replaces m e k He)).
  - intros m e k He. now apply process_writes.
  - intros pre e post k Hes He Hpost.
    rewrite codeReviewProgress_entries, Hes, fold_left_app.
    cbn [fold_left]. rewrite process_untouched by assumption.
    now apply process_writes.
  - unfold LeadReviewers.requestedReviewers.
    assert (H1 : forall l s, NoDup s ->
                 NoDup (fold_left LeadReviewers.add_review_author l s)).
    { induction l as [|r l IH]; intros s Hs; [assumption|].
      simpl. apply IH. unfold LeadReviewers.add_review_author.
      destruct (user_login r); [now apply NoDup_add | assumption]. }
    assert (H2 : forall l s, NoDup s ->
                 NoDup (fold_left
                          (fun s reviewer =>
                             JS.add (requested_login reviewer) s) l s)).
    { induction l as [|r l IH]; intros s Hs; [assumption|].
      simpl. apply IH. now apply NoDup_add. }
    apply H2, H1. constructor.
Qed.

Lemma one_state_per_identity_witness :
  In [("alice", Approved)]
     (aggregation_states
        [review_by (Some "alice") Approved] [request_of "alice"]) /\
  NoDup (JS.keys [("alice", Approved)]) /\
  JS.keys (process [("alice", Approved)] (Requested (request_of "alice")))
  = ["alice"] /\
  JS.get "alice"
    (process [("alice", Approved)] (Requested (request_of "alice")))
  = Some Pending /\
  JS.get "alice"
    (codeReviewProgress
       [review_by (Some "alice") Approved;
        review_by (Some "bob") ChangesRequested;
        review_by (Some "alice") "COMMENTED"] [request_of "bob"])
  = Some "COMMENTED".
Proof.
  pose proof (one_state_per_identity
                [review_by (Some "alice") Approved] [request_of "alice"])
    as [Hstates [_ [Hreplace [Hwrite _]]]].
  assert (Hin : In [("alice", Approved)]
                  (aggregation_states
                     [review_by (Some "alice") Approved]
                     [request_of "alice"]))
    by (right; left; reflexivity).
  split; [exact Hin|]. split; [exact (proj1 (Hstates _ Hin))|].
  split; [|split].
  - exact (proj1 (Hreplace [("alice", Approved)]
                    (Requested (request_of "alice")) "alice"
                    eq_refl (or_introl eq_refl))).
  - exact (proj1 (Hwrite [("alice", Approved)]
                    (Requested (request_of "alice")) "alice" eq_refl)).
  - refine (proj1 (proj2 (proj2 (proj2 (proj2 (one_state_per_identity
              [review_by (Some "alice") Approved;
               review_by (Some "bob") ChangesRequested;
               review_by (Some "alice") "COMMENTED"] [request_of "bob"])))))
              [Posted (review_by (Some "alice") Approved);
               Posted (review_by (Some "bob") ChangesRequested)]
              (Posted (review_by (Some "alice") "COMMENTED"))
              [Requested (request_of "bob")] "alice" eq_refl eq_refl _).
    intros e' [<-|[]]. discriminate.
Defined.
End AggregateClaims.

(* ================================================================== *)
(** ** The approval policy *)
(* ================================================================== *)

Section ApprovalPolicy.
Import Runtime Github ReviewPolicy Notions.

Lemma filter_length_count_occ (st : string) (l : list string) :
  List.length (filter (fun s => String.eqb s st) l)
  = count_occ string_dec l st.
Proof.
  induction l as [|a l IH]; [reflexivity|].
  simpl. destruct (String.eqb_spec a st) as [->|Hne];
    destruct (string_dec _ st); simpl; congruence.
Qed.

Lemma approvesAmount_entries m :
  approvesAmount m = entries_in_state Approved m.
Proof. apply filter_length_count_occ. Qed.

Lemma changesRequestedAmount_entries m :
  changesRequestedAmount m = entries_in_state ChangesRequested m.
Proof. apply filter_length_count_occ. Qed.

Lemma ge_at_least (n : nat) (r : JS.JSNumber) :
  JS.ge (JS.of_nat n) r = true <-> at_least n r.
Proof.
  destruct r as [|[|]|q]; simpl; try (split; congruence || tauto).
  - split; [discriminate | intros []].
  - unfold JS.ge, JS.le, JS.lt, JS.of_nat, JS.of_Z. simpl.
    rewrite negb_involutive. apply Qle_bool_iff.
Qed.

(** C1. The verdict is true exactly when the number of Approved entries
    is at least the threshold and no entry is ChangesRequested; for an
    integer threshold this is the comparison on integers; one
    ChangesRequested entry makes the verdict false whatever the rest. *)
Theorem approval_verdict :
  forall (m : JS.JSMap ReviewState) (required : JS.JSNumber),
    (isApproved m required = true <->
     at_least (entries_in_state Approved m) required /\
     entries_in_state ChangesRequested m = 0%nat) /\
    (forall z : Z,
        isApproved m (JS.of_Z z) = true <->
        (z <= Z.of_nat (entries_in_state Approved m))%Z /\
        entries_in_state ChangesRequested m = 0%nat) /\
    (forall k, In (k, ChangesRequested) m -> isApproved m required = false).
Proof.
  intros m required.
  assert (Hiff : forall r,
             isApproved m r = true <->
             at_least (entries_in_state Approved m) r /\
             entries_in_state ChangesRequested m = 0%nat).
  { intros r. unfold isApproved.
    rewrite andb_true_iff, ge_at_least, Nat.eqb_eq.
    now rewrite approvesAmount_entries, changesRequestedAmount_entries. }
  split; [apply Hiff | split].
  - intros z. rewrite Hiff. simpl. now rewrite <- Zle_Qle.
  - intros k Hin. destruct (isApproved m required) eqn:E; [|reflexivity].
    apply Hiff in E. destruct E as [_ E]. exfalso.
    unfold entries_in_state in E.
    apply (in_map snd) in Hin. simpl in Hin.
    rewrite (count_occ_In string_dec) in Hin. lia.
Qed.

Lemma approval_verdict_witness :
  In ("B", ChangesRequested)
     [("A", Approved); ("B", ChangesRequested)] /\
  isApproved [("A", Approved); ("B", ChangesRequested)] (JS.of_Z 1) = false /\
  isApproved [("A", Approved); ("B", Approved); ("C", Pending)] (JS.of_Z 2)
  = true.
Proof.
  assert (Hin : In ("B", ChangesRequested)
                  [("A", Approved); ("B", ChangesRequested)])
    by (right; left; reflexivity).
  split; [exact Hin | split].
  - exact (proj2 (proj2 (approval_verdict
                           [("A", Approved); ("B", ChangesRequested)]
                           (JS.of_Z 1))) "B" Hin).
  - apply (proj1 (proj2 (approval_verdict
                           [("A", Approved); ("B", Approved); ("C", Pending)]
                           (JS.of_Z 2))) 2%Z).
    split; [vm_compute; discriminate | reflexivity].
Defined.
End ApprovalPolicy.

(* ================================================================== *)
(** ** The lead-reviewer policy *)
(* ================================================================== *)

Section LeadReviewerPolicy.
Import LeadReviewers.

Lemma find_identity (invited : JS.JSSet) (x : string) :
  (exists y,
      JS.find (fun requestedReviewer =>
                 JS.strict_equal_string requestedReviewer (JS.JString x))
              invited = Some y) <-> In x invited.
Proof.
  unfold JS.find. split.
  - intros [y Hy]. apply find_some in Hy. destruct Hy as [Hin E].
    simpl in E. apply String.eqb_eq in E. now subst.
  - intros Hin.
    destruct (List.find _ invited) as [y|] eqn:E; [now exists y|].
    apply (find_none _ _ E) in Hin. simpl in Hin.
    now rewrite String.eqb_refl in Hin.
Qed.

Lemma invited_step (invited : JS.JSSet) (x : string) (rest : list JS.JSVal) :
  areLeadReviewersInvited invited (JS.JString x :: rest)
  = if in_dec string_dec x invited
    then areLeadReviewersInvited invited rest else false.
Proof.
  cbn [areLeadReviewersInvited].
  destruct (in_dec string_dec x invited) as [Hin|Hnin].
  - apply find_identity in Hin. destruct Hin as [y Hy]. now rewrite Hy.
  - destruct (JS.find _ invited) as [y|] eqn:E; [|reflexivity].
    exfalso. apply Hnin, find_identity. now exists y.
Qed.

Lemma invited_prefix (invited : JS.JSSet) (pre : list string)
    (rest : list JS.JSVal) :
  Forall (fun x => In x invited) pre ->
  areLeadReviewersInvited invited (map JS.JString pre ++ rest)
  = areLeadReviewersInvited invited rest.
Proof.
  induction 1 as [|x pre Hx _ IH]; [reflexivity|].
  cbn [map app]. rewrite invited_step.
  destruct (in_dec string_dec x invited); [exact IH | contradiction].
Qed.

(** C4. The verdict is true exactly when every lead reviewer is a member
    of the invited set, compared as exact strings; it is false as soon as
    the first missing identity is met, whatever follows it; with no lead
    reviewer it is true whatever the invited set. *)
Theorem lead_reviewers_verdict :
  forall (invited : JS.JSSet) (leadReviewers : list string),
    (areLeadReviewersInvited invited (map JS.JString leadReviewers) = true
     <-> Forall (fun x => In x invited) leadReviewers) /\
    (areLeadReviewersInvited invited (map JS.JString leadReviewers) = false
     -> exists pre x post,
          leadReviewers = (pre ++ x :: post)%list /\
          Forall (fun y => In y invited) pre /\ ~ In x invited) /\
    (forall (pre : list string) (x : string) (rest : list JS.JSVal),
        Forall (fun y => In y invited) pre -> ~ In x invited ->
        areLeadReviewersInvited invited
          (map JS.JString pre ++ JS.JString x :: rest) = false) /\
    areLeadReviewersInvited invited [] = true.
Proof.
  intros invited leadReviewers. repeat split.
  - induction leadReviewers as [|x l IH]; intros H; [constructor|].
    cbn [map] in H. rewrite invited_step in H.
    destruct (in_dec string_dec x invited); [|discriminate].
    constructor; [assumption | now apply IH].
  - intros H.
    rewrite <- (app_nil_r (map JS.JString leadReviewers)).
    now rewrite invited_prefix.
  - induction leadReviewers as [|x l IH]; intros H; [discriminate|].
    cbn [map] in H. rewrite invited_step in H.
    destruct (in_dec string_dec x invited) as [Hin|Hnin].
    + destruct (IH H) as [pre [y [post [-> [Hpre Hy]]]]].
      exists (x :: pre), y, post. repeat split; [constructor|]; assumption.
    + exists [], x, l. repeat split; [constructor | assumption].
  - intros pre x rest Hpre Hx. rewrite invited_prefix by assumption.
    rewrite invited_step.
    destruct (in_dec string_dec x invited); [contradiction | reflexivity].
Qed.

Lemma lead_reviewers_verdict_witness :
  Forall (fun x => In x ["X"; "Y"; "Z"]) ["X"; "Y"] /\
  areLeadReviewersInvited ["X"; "Y"; "Z"] (map JS.JString ["X"; "Y"]) = true /\
  ~ In "Y" ["X"; "Z"] /\
  areLeadReviewersInvited ["X"; "Z"]
    (map JS.JString ["X"] ++ JS.JString "Y" :: [JS.JString "Z"]) = false.
Proof.
  assert (H1 : Forall (fun x => In x ["X"; "Y"; "Z"]) ["X"; "Y"]).
  { constructor; [left; reflexivity|].
    constructor; [right; left; reflexivity | constructor]. }
  assert (H2 : ~ In "Y" ["X"; "Z"]).
  { intros [H|[H|[]]]; discriminate H. }
  split; [exact H1 | split; [|split; [exact H2|]]].
  - exact (proj2 (proj1 (lead_reviewers_verdict ["X"; "Y"; "Z"] ["X"; "Y"]))
             H1).
  - apply (proj1 (proj2 (proj2 (lead_reviewers_verdict ["X"; "Z"] [])))
             ["X"] "Y" [JS.JString "Z"]);
      [constructor; [left; reflexivity | constructor] | exact H2].
Defined.
End LeadReviewerPolicy.

(* ================================================================== *)
(** ** The required-approvals threshold *)
(* ================================================================== *)

Section Threshold.
Import Runtime Github ReviewPolicy Notions Scenarios.

(** The unanchored pattern accepts exactly the strings with a digit. *)
Lemma test_d12_from_digit (l : list ascii) :
  JS.test_d12_from l = true <-> exists c, In c l /\ JS.is_digit c = true.
Proof.
  induction l as [|c l IH]; simpl.
  - split; [discriminate | intros [c [[] _]]].
  - destruct (JS.is_digit c) eqn:Ec.
    + split; [intros _; exists c; auto|].
      intros _. now destruct l as [|c' l']; [|destruct (JS.is_digit c')].
    + rewrite IH. split.
      * intros [d [Hd Ed]]. exists d. auto.
      * intros [d [[<-|Hd] Ed]]; [congruence | exists d; auto].
Qed.

Lemma test_d12_has_digit (s : string) :
  JS.test_d12 s = true <-> has_digit s.
Proof. apply test_d12_from_digit. Qed.

(** C10. In the regex variant: an input that contains a decimal digit and
    whose parseInt is greater than 0 gives that parsed value, "100" and
    "12abc" included; every other input gives the default 1; no failure
    signal is raised in either case. *)
Theorem regex_threshold :
  forall (w : World),
    let s := getInput w RequiredApprovesAmount in
    (has_digit s -> JS.gt (JS.parseInt10 s) (JS.of_Z 0) = true ->
     ReviewPolicyRegex.getRequiredApprovesAmount w = ret (JS.parseInt10 s)) /\
    (~ (has_digit s /\ JS.gt (JS.parseInt10 s) (JS.of_Z 0) = true) ->
     ReviewPolicyRegex.getRequiredApprovesAmount w = ret DEFAULT_AMOUNT) /\
    trace (ReviewPolicyRegex.getRequiredApprovesAmount w) = [] /\
    ReviewPolicyRegex.getRequiredApprovesAmount (submitted_with_input "100")
    = ret (JS.of_Z 100) /\
    ReviewPolicyRegex.getRequiredApprovesAmount (submitted_with_input "12abc")
    = ret (JS.of_Z 12) /\
    ReviewPolicyRegex.getRequiredApprovesAmount (submitted_with_input "abc1")
    = ret DEFAULT_AMOUNT.
Proof.
  intros w s. unfold ReviewPolicyRegex.getRequiredApprovesAmount.
  fold s. repeat split; try reflexivity.
  - intros Hd Hp. apply test_d12_has_digit in Hd. now rewrite Hd, Hp.
  - intros Hn. destruct (JS.test_d12 s) eqn:Et; [|reflexivity].
    destruct (JS.gt (JS.parseInt10 s) (JS.of_Z 0)) eqn:Ep; [|reflexivity].
    exfalso. apply Hn. split; [now apply test_d12_has_digit | reflexivity].
  - destruct (JS.test_d12 s); [|reflexivity].
    now destruct (JS.gt (JS.parseInt10 s) (JS.of_Z 0)).
Qed.

Lemma regex_threshold_witness :
  has_digit "7 approvals" /\
  JS.gt (JS.parseInt10 "7 approvals") (JS.of_Z 0) = true /\
  ReviewPolicyRegex.getRequiredApprovesAmount
    (submitted_with_input "7 approvals") = ret (JS.of_Z 7) /\
  ~ (has_digit "-3" /\ JS.gt (JS.parseInt10 "-3") (JS.of_Z 0) = true) /\
  ReviewPolicyRegex.getRequiredApprovesAmount (submitted_with_input "-3")
  = ret DEFAULT_AMOUNT.
Proof.
  assert (H1 : has_digit "7 approvals").
  { exists "7"%char. split; [left; reflexivity | reflexivity]. }
  assert (H2 : JS.gt (JS.parseInt10 "7 approvals") (JS.of_Z 0) = true)
    by reflexivity.
  assert (H3 : ~ (has_digit "-3"
                  /\ JS.gt (JS.parseInt10 "-3") (JS.of_Z 0) = true)).
  { intros [_ H]. vm_compute in H. discriminate H. }
  split; [exact H1 | split; [exact H2 | split; [|split; [exact H3|]]]].
  - exact (proj1 (regex_threshold (submitted_with_input "7 approvals"))
             H1 H2).
  - exact (proj1 (proj2 (regex_threshold (submitted_with_input "-3"))) H3).
Defined.

(** C5, as stated, fails in both variants: with input "abc" the Number
    variant signals a failure and goes on with NaN; with input "12abc"
    the regex variant uses 12. *)
Lemma malformed_input_is_not_always_defaulted :
  ~ malformed_input_defaults ReviewPolicyNumber.getRequiredApprovesAmount
      (submitted_with_input "abc") /\
  ReviewPolicyNumber.getRequiredApprovesAmount (submitted_with_input "abc")
  = ([SetFailed "Incorrect value of the `requiredApprovesAmount` input"],
     inr JS.JNaN) /\
  ~ malformed_input_defaults ReviewPolicyRegex.getRequiredApprovesAmount
      (submitted_with_input "12abc").
Proof.
  repeat split.
  - intros H. specialize (H eq_refl). vm_compute in H. discriminate H.
  - intros H. specialize (H eq_refl). vm_compute in H. discriminate H.
Qed.

(** C5, amended. An unset or empty input gives the default threshold 1 in
    both variants, with no failure signal. In the regex variant every
    input without a decimal digit, or whose parseInt is NaN or not
    greater than 0, gives 1 as well. In the Number variant a non-empty
    input is not replaced by the default: the threshold is its Number
    value, whatever it is, and a failure signal is raised exactly when
    that value is NaN or not greater than 0. *)
Theorem default_threshold :
  forall (w : World),
    let s := getInput w RequiredApprovesAmount in
    (s = EmptyString ->
     ReviewPolicyRegex.getRequiredApprovesAmount w = ret DEFAULT_AMOUNT /\
     ReviewPolicyNumber.getRequiredApprovesAmount w = ret DEFAULT_AMOUNT) /\
    (~ has_digit s \/ JS.gt (JS.parseInt10 s) (JS.of_Z 0) = false ->
     ReviewPolicyRegex.getRequiredApprovesAmount w = ret DEFAULT_AMOUNT) /\
    (s <> EmptyString ->
     ReviewPolicyNumber.getRequiredApprovesAmount w
     = (if JS.isNaN (JS.Number s) || JS.le (JS.Number s) (JS.of_Z 0)
        then [SetFailed "Incorrect value of the `requiredApprovesAmount` input"]
        else [],
        inr (JS.Number s))).
Proof.
  intros w s. repeat split.
  - unfold ReviewPolicyRegex.getRequiredApprovesAmount. fold s.
    now rewrite H.
  - unfold ReviewPolicyNumber.getRequiredApprovesAmount. fold s.
    now rewrite H.
  - intros [Hd|Hp]; unfold ReviewPolicyRegex.getRequiredApprovesAmount;
      fold s.
    + destruct (JS.test_d12 s) eqn:Et; [|reflexivity].
      exfalso. now apply Hd, test_d12_has_digit.
    + rewrite Hp. now destruct (JS.test_d12 s).
  - intros Hne. unfold ReviewPolicyNumber.getRequiredApprovesAmount. fold s.
    destruct (String.eqb_spec s EmptyString) as [E|_]; [contradiction|].
    now destruct (JS.isNaN (JS.Number s) || JS.le (JS.Number s) (JS.of_Z 0)).
Qed.

Lemma default_threshold_witness :
  getInput (submitted_with_input "") RequiredApprovesAmount = "" /\
  ReviewPolicyRegex.getRequiredApprovesAmount (submitted_with_input "")
  = ret DEFAULT_AMOUNT /\
  ReviewPolicyNumber.getRequiredApprovesAmount (submitted_with_input "")
  = ret DEFAULT_AMOUNT /\
  ReviewPolicyNumber.getRequiredApprovesAmount (submitted_with_input "0")
  = ([SetFailed "Incorrect value of the `requiredApprovesAmount` input"],
     inr (JS.of_Z 0)) /\
  ReviewPolicyNumber.getRequiredApprovesAmount (submitted_with_input "1e-400")
  = ([SetFailed "Incorrect value of the `requiredApprovesAmount` input"],
     inr (JS.of_Z 0)) /\
  ReviewPolicyNumber.getRequiredApprovesAmount (submitted_with_input "2.5")
  = ret (JS.JNum (5 # 2)).
Proof.
  split; [reflexivity|].
  destruct (proj1 (default_threshold (submitted_with_input "")) eq_refl)
    as [H1 H2].
  split; [exact H1 | split; [exact H2|]].
  split; [|split].
  - apply (proj2 (proj2 (default_threshold (submitted_with_input "0")))).
    discriminate.
  - apply (proj2 (proj2 (default_threshold (submitted_with_input "1e-400")))).
    discriminate.
  - apply (proj2 (proj2 (default_threshold (submitted_with_input "2.5")))).
    discriminate.
Defined.
End Threshold.

(* ================================================================== *)
(** ** The invocations *)
(* ================================================================== *)

Section Invocations.
Import Runtime Github Notions Scenarios.

Lemma try_catch_emit (ev : Event) (k : unit -> Action unit)
    (handler : Thrown -> Action unit) :
  try_catch (bind (emit ev) k) handler
  = (ev :: trace (try_catch (k tt) handler),
     outcome (try_catch (k tt) handler)).
Proof.
  unfold try_catch, bind, emit, trace, outcome.
  destruct (k tt) as [t [e|[]]]; simpl; [|reflexivity].
  now destruct (handler e).
Qed.

(** C6, as stated, fails when the unsupported trigger carries no pull
    request: the earlier guard raises a failure signal. *)
Lemma unsupported_action_without_pull_request_fails :
  ~ unsupported_action_is_quiet issue_opened /\
  ReviewPolicyRegex.run issue_opened
  = ([SetFailed "This event doesn't contain PR"], inr tt).
Proof.
  split; [|reflexivity].
  intros H.
  destruct (H {| action := Some "opened"; pull_request := None |}
              eq_refl eq_refl) as [_ Hq].
  destruct (Hq (SetFailed "This event doesn't contain PR")
              (or_introl eq_refl)) as [_ Hf].
  discriminate Hf.
Qed.

(** C6, amended. In the review-policy variant, when the environment
    variables are set and the event payload is readable and carries a
    pull request, a trigger whose action is neither "submitted" nor
    "review_requested" ends the invocation normally with one
    informational log and nothing else: no verdict, no output, no
    failure signal. *)
Theorem unsupported_action_only_logs :
  forall (w : ReviewPolicy.World) (payload : WebhookPayload)
         (pr : PullRequest),
    doesGithubEnvExist
      {| token := ReviewPolicy.GITHUB_TOKEN w;
         repositoryPath := ReviewPolicy.GITHUB_REPOSITORY w;
         eventPath := ReviewPolicy.GITHUB_EVENT_PATH w |} = true ->
    ReviewPolicy.getGithubPayload w
      (narrowed (ReviewPolicy.GITHUB_EVENT_PATH w)) = inr payload ->
    pull_request payload = Some pr ->
    action payload <> Some "submitted" ->
    action payload <> Some "review_requested" ->
    ReviewPolicyRegex.run w
    = ([Info (JS.interpolate (ReviewPolicy.GITHUB_EVENT_NAME w) ++ "/"
              ++ JS.interpolate (action payload) ++ "/ isn't supported.")],
       inr tt) /\
    quiet (ReviewPolicyRegex.run w).
Proof.
  intros w payload pr Henv Hpayload Hpr Hs Hr.
  assert (Hacc : ReviewPolicyRegex.isAcceptableAction (action payload)
                 = false).
  { unfold ReviewPolicyRegex.isAcceptableAction.
    destruct (action payload) as [a|]; [|reflexivity].
    destruct (String.eqb_spec a "submitted") as [->|_]; [congruence|].
    destruct (String.eqb_spec a "review_requested") as [->|_];
      [congruence | reflexivity]. }
  assert (Hrun : ReviewPolicyRegex.run w
                 = ([Info (JS.interpolate (ReviewPolicy.GITHUB_EVENT_NAME w)
                           ++ "/" ++ JS.interpolate (action payload)
                           ++ "/ isn't supported.")], inr tt)).
  { unfold ReviewPolicyRegex.run. rewrite Henv. cbn [negb eventPath].
    rewrite Hpayload. unfold await, bind. rewrite Hpr, Hacc. reflexivity. }
  split; [exact Hrun|].
  rewrite Hrun. split; [reflexivity|].
  intros ev [<-|[]]. split; reflexivity.
Qed.

Lemma unsupported_action_only_logs_witness :
  ReviewPolicyRegex.run pull_request_closed
  = ([Info "pull_request/closed/ isn't supported."], inr tt).
Proof.
  apply (unsupported_action_only_logs pull_request_closed
           {| action := Some "closed";
              pull_request := Some {| number := 7 |} |}
           {| number := 7 |});
    try reflexivity; discriminate.
Defined.
End Invocations.

Section LeadInvocation.
Import Runtime Github Notions Scenarios LeadReviewers.

Lemma bind_ret_l {A B : Type} (a : A) (k : A -> Action B) :
  bind (ret a) k = k a.
Proof. unfold bind, ret. now destruct (k a). Qed.

Lemma check_config_missing (w : World) (config : PullsRequestConfig)
    (response : JS.JSVal) :
  is_object_or_array response ->
  JS.has_property "content" response && JS.has_property "encoding" response
  = false ->
  check_config w config response
  = bind (setFailed "Can't process the config file")
      (fun _ => read_config w config response).
Proof.
  intros Hshape Hmiss. unfold check_config.
  assert (Hin : forall k, in_operator w k response
                          = ret (JS.has_property k response)).
  { intros k. now destruct response. }
  rewrite (Hin "content"), bind_ret_l.
  destruct (JS.has_property "content" response); cbn [negb].
  - rewrite (Hin "encoding"), bind_ret_l, bind_ret_l.
    cbn [andb] in Hmiss. now rewrite Hmiss.
  - now rewrite bind_ret_l.
Qed.

(** C7. In the lead-reviewer variant, when the fetched object lacks
    [content] or [encoding], or the decoded document's
    [reviewers.defaults] is not a list, the failure signal is raised and
    the invocation goes on with the very steps that follow: decoding,
    then the invite check, whose output is still published when nothing
    on the way throws. *)
Theorem config_failure_does_not_halt :
  forall (w : World) (config : PullsRequestConfig) (response : JS.JSVal),
    (is_object_or_array response ->
     JS.has_property "content" response
     && JS.has_property "encoding" response = false ->
     check_config w config response
     = bind (setFailed "Can't process the config file")
         (fun _ => read_config w config response)) /\
    (forall pr o r,
        doesGithubEnvExist
          {| token := GITHUB_TOKEN w;
             repositoryPath := GITHUB_REPOSITORY w;
             eventPath := GITHUB_EVENT_PATH w |} = true ->
        context_pull_request w = Some pr ->
        context_repo w = inr (o, r) ->
        config = {| owner := o; repo := r; pull_number := number pr |} ->
        getContent w config (getInput w Config) (context_ref w)
        = inr response ->
        is_object_or_array response ->
        JS.has_property "content" response
        && JS.has_property "encoding" response = false ->
        run w
        = (SetFailed "Can't process the config file"
             :: trace (try_catch (read_config w config response)
                         report_error),
           outcome (try_catch (read_config w config response)
                      report_error))) /\
    (forall v,
        decode_leadReviewers w response = ret v ->
        JS.instanceof_Array v = false ->
        read_config w config response
        = bind (setFailed "Could not read lead reviewers from the config")
            (fun _ => invite_check w config v)) /\
    (forall s pending posted,
        listRequestedReviewers w config = inr pending ->
        listReviews w config = inr posted ->
        exists value,
          trace (invite_check w config (JS.JString s))
          = [SetOutput AreLeadsInvited value;
             ConsoleGroup [LogString "Results:"];
             ConsoleGroup [LogString "Lead reviewers:"]]).
Proof.
  intros w config response. repeat split.
  - apply check_config_missing.
  - intros pr o r Henv Hpr Hrepo -> Hget Hshape Hmiss.
    unfold run. rewrite Henv, Hpr. cbn [negb].
    rewrite Hrepo. change (await (inr (o, r))) with (ret (o, r)).
    rewrite bind_ret_l, Hget.
    change (await (inr response)) with (ret response).
    rewrite bind_ret_l, check_config_missing by assumption.
    apply try_catch_emit.
  - intros v Hv Harr. unfold read_config.
    now rewrite Hv, bind_ret_l, Harr.
  - intros s pending posted Hp Hr. unfold invite_check.
    rewrite Hp, Hr. cbn.
    destruct (areLeadReviewersInvited _ _); eexists; reflexivity.
Qed.

Lemma config_failure_does_not_halt_witness :
  is_object_or_array file_without_encoding /\
  JS.has_property "content" file_without_encoding
  && JS.has_property "encoding" file_without_encoding = false /\
  run (lead_world file_without_encoding config_with_list)
  = ([SetFailed "Can't process the config file";
      SetOutput AreLeadsInvited "true";
      ConsoleGroup [LogString "Results:"];
      ConsoleGroup [LogString "Lead reviewers:"];
      ConsoleLog [LogValue (JS.JString "lead1")];
      ConsoleGroupEnd;
      ConsoleGroup [LogString "All requested reviewers:"];
      ConsoleLog [LogString "lead1"];
      ConsoleGroupEnd;
      ConsoleLog [LogString "Are the lead reviewers invited?";
                  LogBoolean true];
      ConsoleGroupEnd], inr tt) /\
  run (lead_world directory_listing config_with_list)
  = ([SetFailed "Can't process the config file";
      SetFailed "The first argument must be of type string"], inr tt) /\
  run (lead_world file_response config_with_scalar)
  = ([SetFailed "Could not read lead reviewers from the config";
      SetOutput AreLeadsInvited "false";
      ConsoleGroup [LogString "Results:"];
      ConsoleGroup [LogString "Lead reviewers:"];
      SetFailed "leadReviewers.forEach is not a function"], inr tt).
Proof.
  split; [exact I | split; [reflexivity | split; [|split]]].
  - rewrite (proj1 (proj2 (config_failure_does_not_halt
               (lead_world file_without_encoding config_with_list)
               {| owner := "saritasa-nest";
                  repo := Some "saritasa-pr-approved-action";
                  pull_number := 7 |}
               file_without_encoding))
               {| number := 7 |} "saritasa-nest"
               (Some "saritasa-pr-approved-action")
               eq_refl eq_refl eq_refl eq_refl eq_refl I eq_refl).
    reflexivity.
  - reflexivity.
  - reflexivity.
Defined.
End LeadInvocation.

(* ================================================================== *)
(** ** Traces *)
(* ================================================================== *)

Section TraceFacts.
Import Runtime Observations.

Lemma trace_bind {A B : Type} (c : Action A) (k : A -> Action B) :
  trace (bind c k)
  = (trace c ++ match outcome c with
                | inr a => trace (k a)
                | inl _ => []
                end)%list.
Proof.
  destruct c as [t [e|a]]; simpl; [now rewrite app_nil_r|].
  now destruct (k a).
Qed.

Lemma outcome_bind {A B : Type} (c : Action A) (k : A -> Action B) :
  outcome (bind c k)
  = match outcome c with
    | inr a => outcome (k a)
    | inl e => inl e
    end.
Proof. destruct c as [t [e|a]]; simpl; [reflexivity | now destruct (k a)]. Qed.

Lemma trace_try_catch (body : Action unit) (handler : Thrown -> Action unit) :
  trace (try_catch body handler)
  = (trace body ++ match outcome body with
                   | inl e => trace (handler e)
                   | inr _ => []
                   end)%list.
Proof.
  destruct body as [t [e|a]]; simpl; [|now rewrite app_nil_r].
  now destruct (handler e).
Qed.

Lemma outcome_try_catch_report (body : Action unit) :
  outcome (try_catch body report_error) = inr tt.
Proof. now destruct body as [t [[m|]|[]]]. Qed.

Lemma try_catch_normal (body : Action unit) (handler : Thrown -> Action unit) :
  outcome body = inr tt -> try_catch body handler = body.
Proof. destruct body as [t [e|[]]]; simpl; [discriminate | reflexivity]. Qed.

Lemma published_app (t1 t2 : list Event) :
  published (t1 ++ t2) = (published t1 ++ published t2)%list.
Proof. apply flat_map_app. Qed.

Lemma failures_app (t1 t2 : list Event) :
  failures (t1 ++ t2) = (failures t1 ++ failures t2)%list.
Proof. apply flat_map_app. Qed.

Lemma published_report_error (e : Thrown) :
  published (trace (report_error e)) = [].
Proof. now destruct e. Qed.

Lemma published_try_catch_report (body : Action unit) :
  published (trace (try_catch body report_error)) = published (trace body).
Proof.
  rewrite trace_try_catch, published_app.
  destruct (outcome body) as [e|a];
    [rewrite published_report_error|]; apply app_nil_r.
Qed.
End TraceFacts.

(* ================================================================== *)
(** ** The repository path *)
(* ================================================================== *)

Section RepositoryPath.
Import Runtime Github Observations.

Lemma split_without_separator (sep : ascii) (s : string) :
  ~ In sep (JS.chars s) -> JS.split sep s = [s].
Proof.
  induction s as [|c r IH]; [reflexivity|].
  simpl. intros Hnin. destruct (Ascii.eqb_spec c sep) as [->|_]; [tauto|].
  rewrite IH by tauto. reflexivity.
Qed.

Lemma split_at_separator (sep : ascii) (a b : string) :
  ~ In sep (JS.chars a) ->
  JS.split sep (a ++ String sep b) = a :: JS.split sep b.
Proof.
  induction a as [|c r IH]; simpl; intros Hnin.
  - now rewrite Ascii.eqb_refl.
  - destruct (Ascii.eqb_spec c sep) as [->|_]; [tauto|].
    rewrite IH by tauto. reflexivity.
Qed.

(** X1. [repositoryPath.split('/')]: "owner/repo" gives that owner and that
    repository; further segments are dropped; a path without "/" leaves
    the repository undefined. *)
Theorem repository_path_is_split :
  forall (o r : string) (pr : PullRequest),
    ~ has_slash o -> ~ has_slash r ->
    pullsRequestConfig (o ++ "/" ++ r) pr
    = {| owner := o; repo := Some r; pull_number := number pr |} /\
    (forall rest,
        pullsRequestConfig (o ++ "/" ++ r ++ "/" ++ rest) pr
        = {| owner := o; repo := Some r; pull_number := number pr |}) /\
    pullsRequestConfig o pr
    = {| owner := o; repo := None; pull_number := number pr |}.
Proof.
  intros o r pr Ho Hr. unfold pullsRequestConfig. repeat split.
  - change (o ++ "/" ++ r) with (o ++ String "/" r).
    rewrite split_at_separator, split_without_separator by assumption.
    reflexivity.
  - intros rest.
    change (o ++ "/" ++ r ++ "/" ++ rest)
      with (o ++ String "/" (r ++ String "/" rest)).
    rewrite !split_at_separator by assumption. reflexivity.
  - rewrite split_without_separator by assumption. reflexivity.
Qed.

Lemma repository_path_is_split_witness :
  ~ has_slash "saritasa-nest" /\
  ~ has_slash "saritasa-pr-approved-action" /\
  pullsRequestConfig "saritasa-nest/saritasa-pr-approved-action"
    {| number := 7 |}
  = {| owner := "saritasa-nest";
       repo := Some "saritasa-pr-approved-action";
       pull_number := 7 |}.
Proof.
  assert (H1 : ~ has_slash "saritasa-nest").
  { unfold has_slash. simpl. intuition discriminate. }
  assert (H2 : ~ has_slash "saritasa-pr-approved-action").
  { unfold has_slash. simpl. intuition discriminate. }
  split; [exact H1 | split; [exact H2|]].
  exact (proj1 (repository_path_is_split "saritasa-nest"
                  "saritasa-pr-approved-action" {| number := 7 |} H1 H2)).
Defined.
End RepositoryPath.

(* ================================================================== *)
(** ** More on the aggregate *)
(* ================================================================== *)

Section AggregateKeys.
Import Runtime Github ReviewPolicy Notions Observations.
Implicit Types (m : JS.JSMap ReviewState) (k : string).

Lemma keys_set_add {V : Type} k (v : V) (m : JS.JSMap V) :
  JS.keys (JS.set k v m) = JS.add k (JS.keys m).
Proof.
  unfold JS.add. destruct (JS.has k (JS.keys m)) eqn:E.
  - apply keys_set_present. now apply has_In.
  - apply keys_set_absent. rewrite <- has_In. congruence.
Qed.

Lemma get_None_keys {V : Type} k (m : JS.JSMap V) :
  JS.get k m = None <-> ~ In k (JS.keys m).
Proof.
  induction m as [|[k' v'] m IH]; simpl; [tauto|].
  destruct (String.eqb_spec k' k) as [->|Hne].
  - split; [discriminate | tauto].
  - rewrite IH. tauto.
Qed.

Lemma In_get {V : Type} k (v : V) (m : JS.JSMap V) :
  NoDup (JS.keys m) -> (In (k, v) m <-> JS.get k m = Some v).
Proof.
  induction m as [|[k' v'] m IH]; simpl; intros Hnd.
  - split; [tauto | discriminate].
  - inversion Hnd as [|? ? Hnin Hnd']; subst.
    destruct (String.eqb_spec k' k) as [->|Hne].
    + split.
      * intros [E|Hin]; [congruence|].
        exfalso. apply Hnin. apply (in_map fst) in Hin. exact Hin.
      * intros E. left. congruence.
    + rewrite <- (IH Hnd'). split; [intros [E|H]; [congruence | exact H] | tauto].
Qed.

Lemma keys_after_reviews reviews : forall m,
  JS.keys (after_reviews reviews m)
  = fold_left LeadReviewers.add_review_author reviews (JS.keys m).
Proof.
  induction reviews as [|r rest IH]; intros m; [reflexivity|].
  rewrite after_reviews_cons, IH. simpl. f_equal.
  unfold record_review, LeadReviewers.add_review_author.
  destruct (user_login r); [apply keys_set_add | reflexivity].
Qed.

Lemma keys_pending_pass pending : forall m,
  JS.keys (fold_left record_pending pending m)
  = fold_left (fun s reviewer => JS.add (requested_login reviewer) s)
      pending (JS.keys m).
Proof.
  induction pending as [|p rest IH]; intros m; [reflexivity|].
  simpl. rewrite IH. f_equal. apply keys_set_add.
Qed.

Lemma requestedReviewers_keys reviews pending :
  LeadReviewers.requestedReviewers reviews pending
  = JS.keys (codeReviewProgress reviews pending).
Proof.
  unfold LeadReviewers.requestedReviewers, codeReviewProgress.
  now rewrite keys_pending_pass, keys_after_reviews.
Qed.

(** X2. The set of identities main.ts collects is the key sequence of the
    map the approval policy builds from the same two responses, in the
    same order; the lead-reviewer verdict is therefore the one computed
    on the keys of that map. *)
Theorem requested_reviewers_are_the_aggregate_keys :
  forall (reviews : list Review) (pending : list RequestedReviewer),
    LeadReviewers.requestedReviewers reviews pending
    = JS.keys (codeReviewProgress reviews pending) /\
    (forall leadReviewers,
        LeadReviewers.areLeadReviewersInvited
          (LeadReviewers.requestedReviewers reviews pending) leadReviewers
        = LeadReviewers.areLeadReviewersInvited
            (JS.keys (codeReviewProgress reviews pending)) leadReviewers).
Proof.
  intros reviews pending. split; [apply requestedReviewers_keys|].
  intros leadReviewers. now rewrite requestedReviewers_keys.
Qed.

Lemma In_add_review_authors k reviews : forall s,
  In k (fold_left LeadReviewers.add_review_author reviews s)
  <-> (exists r, In r reviews /\ posted_by k r) \/ In k s.
Proof.
  induction reviews as [|r rest IH]; intros s; simpl.
  - split; [tauto | intros [[r [[] _]]|H]; exact H].
  - rewrite IH. unfold LeadReviewers.add_review_author, posted_by.
    destruct (user_login r) as [l|] eqn:El.
    + rewrite In_add. split.
      * intros [[r' [Hin Hr']]|[->|Hs]];
          [left; exists r'; auto | left; exists r; auto | right; exact Hs].
      * intros [[r' [[<-|Hin] Hr']]|Hs];
          [right; left; congruence | left; exists r'; auto
          | right; right; exact Hs].
    + split.
      * intros [[r' [Hin Hr']]|Hs];
          [left; exists r'; auto | right; exact Hs].
      * intros [[r' [[<-|Hin] Hr']]|Hs];
          [congruence | left; exists r'; auto | right; exact Hs].
Qed.

Lemma In_add_pending k pending : forall s,
  In k (fold_left (fun s reviewer => JS.add (requested_login reviewer) s)
          pending s)
  <-> is_pending k pending \/ In k s.
Proof.
  unfold is_pending.
  induction pending as [|p rest IH]; intros s; simpl; [tauto|].
  rewrite IH, In_add. intuition congruence.
Qed.

Lemma In_requestedReviewers reviews pending k :
  In k (LeadReviewers.requestedReviewers reviews pending)
  <-> invited reviews pending k.
Proof.
  unfold LeadReviewers.requestedReviewers, invited.
  rewrite In_add_pending, In_add_review_authors. simpl. tauto.
Qed.

(** X3. An identity has an entry in the aggregate exactly when it posted a
    review or has a pending request; no other identity is ever looked up
    successfully, and the same holds for the set of main.ts. *)
Theorem aggregate_holds_the_invited :
  forall (reviews : list Review) (pending : list RequestedReviewer)
         (k : string),
    (In k (JS.keys (codeReviewProgress reviews pending))
     <-> invited reviews pending k) /\
    (JS.get k (codeReviewProgress reviews pending) = None
     <-> ~ invited reviews pending k) /\
    (In k (LeadReviewers.requestedReviewers reviews pending)
     <-> invited reviews pending k).
Proof.
  intros reviews pending k.
  pose proof (In_requestedReviewers reviews pending k) as H.
  repeat split.
  - rewrite <- requestedReviewers_keys. apply H.
  - rewrite <- requestedReviewers_keys. apply H.
  - rewrite get_None_keys, <- requestedReviewers_keys.
    intros Hn Hi. apply Hn, H, Hi.
  - rewrite get_None_keys, <- requestedReviewers_keys.
    intros Hn Hi. apply Hn, H, Hi.
  - apply H.
  - apply H.
Qed.

Lemma aggregate_holds_the_invited_witness :
  invited [review_by (Some "alice") Approved] [request_of "bob"] "bob" /\
  In "bob"
    (JS.keys (codeReviewProgress [review_by (Some "alice") Approved]
                [request_of "bob"])).
Proof.
  assert (H : invited [review_by (Some "alice") Approved]
                [request_of "bob"] "bob").
  { right. left. reflexivity. }
  split; [exact H|].
  exact (proj2 (proj1 (aggregate_holds_the_invited
                         [review_by (Some "alice") Approved]
                         [request_of "bob"] "bob")) H).
Defined.
End AggregateKeys.

Section AggregateCounts.
Import Runtime Github ReviewPolicy Notions Observations.
Implicit Types (m : JS.JSMap ReviewState) (k : string).

(** What [set] does to the number of values equal to [st]: the old value
    of [k], if any, leaves and the new one enters. *)
Lemma count_after_set m k (v st : ReviewState) :
  (count_occ string_dec (JS.values (JS.set k v m)) st
   + match JS.get k m with
     | Some old => if string_dec old st then 1 else 0
     | None => 0
     end
   = count_occ string_dec (JS.values m) st
     + if string_dec v st then 1 else 0)%nat.
Proof.
  induction m as [|[k' v'] m IH]; simpl.
  - destruct (string_dec v st); reflexivity.
  - destruct (String.eqb_spec k' k) as [->|Hne]; simpl.
    + destruct (string_dec v st), (string_dec v' st); lia.
    + destruct (string_dec v' st); lia.
Qed.

Lemma amount_count (st : ReviewState) m :
  List.length (filter (fun s => String.eqb s st) (reviewStates m))
  = count_occ string_dec (JS.values m) st.
Proof. apply filter_length_count_occ. Qed.

(** X4. A pending review request takes the reviewer's previous answer out
    of the counts: an approval by that reviewer no longer counts, a change
    request by that reviewer no longer blocks, and nobody else's answer is
    touched. *)
Theorem pending_request_withdraws_the_answer :
  forall (m : JS.JSMap ReviewState) (reviewer : RequestedReviewer),
    let k := requested_login reviewer in
    (JS.get k m = Some Approved ->
     (approvesAmount (record_pending m reviewer) + 1 = approvesAmount m)%nat /\
     changesRequestedAmount (record_pending m reviewer)
     = changesRequestedAmount m) /\
    (JS.get k m = Some ChangesRequested ->
     approvesAmount (record_pending m reviewer) = approvesAmount m /\
     (changesRequestedAmount (record_pending m reviewer) + 1
      = changesRequestedAmount m)%nat) /\
    (JS.get k m <> Some Approved -> JS.get k m <> Some ChangesRequested ->
     approvesAmount (record_pending m reviewer) = approvesAmount m /\
     changesRequestedAmount (record_pending m reviewer)
     = changesRequestedAmount m).
Proof.
  intros m reviewer k.
  unfold approvesAmount, changesRequestedAmount, record_pending.
  rewrite !amount_count. fold k.
  pose proof (count_after_set m k Pending Approved) as Ha.
  pose proof (count_after_set m k Pending ChangesRequested) as Hc.
  destruct (string_dec Pending Approved) as [E|_]; [discriminate E|].
  destruct (string_dec Pending ChangesRequested) as [E|_]; [discriminate E|].
  repeat split.
  - rewrite H in Ha. simpl in Ha. lia.
  - rewrite H in Hc. simpl in Hc. lia.
  - rewrite H in Ha. simpl in Ha. lia.
  - rewrite H in Hc. simpl in Hc. lia.
  - destruct (JS.get k m) as [old|]; [|lia].
    destruct (string_dec old Approved) as [->|_]; [congruence | lia].
  - destruct (JS.get k m) as [old|]; [|lia].
    destruct (string_dec old ChangesRequested) as [->|_]; [congruence | lia].
Qed.

Lemma pending_request_withdraws_the_answer_witness :
  JS.get "alice" [("alice", Approved); ("bob", Approved)] = Some Approved /\
  approvesAmount [("alice", Approved); ("bob", Approved)] = 2%nat /\
  (approvesAmount
     (record_pending [("alice", Approved); ("bob", Approved)]
        (request_of "alice")) + 1
   = approvesAmount [("alice", Approved); ("bob", Approved)])%nat.
Proof.
  split; [reflexivity | split; [reflexivity|]].
  exact (proj1 (proj1 (pending_request_withdraws_the_answer
                         [("alice", Approved); ("bob", Approved)]
                         (request_of "alice")) eq_refl)).
Defined.

Lemma NoDup_keys_aggregate reviews pending :
  NoDup (JS.keys (codeReviewProgress reviews pending)).
Proof.
  apply (NoDup_keys_states (entries reviews pending) JS.new_Map);
    [constructor|].
  rewrite codeReviewProgress_entries. apply last_state_from.
Qed.

(** Maps with duplicate-free keys and the same lookups hold the same
    entries, up to order. *)
Lemma same_lookups_permutation {V : Type} (m m' : JS.JSMap V) :
  NoDup (JS.keys m) -> NoDup (JS.keys m') ->
  (forall k, JS.get k m = JS.get k m') -> Permutation m m'.
Proof.
  intros Hm Hm' Hget. apply NoDup_Permutation.
  - eapply NoDup_map_inv; exact Hm.
  - eapply NoDup_map_inv; exact Hm'.
  - intros [k v]. rewrite !In_get by assumption. now rewrite Hget.
Qed.

Lemma isApproved_permutation m m' required :
  Permutation m m' -> isApproved m required = isApproved m' required.
Proof.
  intros Hp. unfold isApproved, approvesAmount, changesRequestedAmount.
  rewrite !amount_count. unfold JS.values.
  assert (Hv : Permutation (map snd m) (map snd m'))
    by now apply Permutation_map.
  rewrite (Permutation_count_occ string_dec) in Hv.
  now rewrite !Hv.
Qed.
End AggregateCounts.

Section VerdictInvariance.
Import Runtime Github ReviewPolicy Notions Observations.
Implicit Types (m : JS.JSMap ReviewState) (k : string).

(** After the review pass, [k]'s entry depends on the starting map only
    through [k]'s entry there, and not at all once [k] posts a review. *)
Lemma after_reviews_get k post : forall m1 m2,
  JS.get k m1 = JS.get k m2 \/ (exists r, In r post /\ posted_by k r) ->
  JS.get k (after_reviews post m1) = JS.get k (after_reviews post m2).
Proof.
  induction post as [|r rest IH]; intros m1 m2 H.
  - destruct H as [H|[r [[] _]]]. exact H.
  - rewrite !after_reviews_cons. apply IH.
    unfold record_review. destruct (user_login r) as [l|] eqn:El.
    + destruct (string_dec l k) as [->|Hne].
      * left. now rewrite !get_set_same.
      * rewrite !get_set_other by assumption.
        destruct H as [H|[r' [[<-|Hin] Hr']]];
          [now left | unfold posted_by in Hr'; congruence
          | right; exists r'; auto].
    + destruct H as [H|[r' [[<-|Hin] Hr']]];
        [now left | unfold posted_by in Hr'; congruence
        | right; exists r'; auto].
Qed.

Lemma existsb_pending_iff k pending pending' :
  (is_pending k pending <-> is_pending k pending') ->
  existsb (String.eqb k) (map requested_login pending)
  = existsb (String.eqb k) (map requested_login pending').
Proof.
  rewrite !is_pending_existsb.
  destruct (existsb _ (map requested_login pending)),
           (existsb _ (map requested_login pending')); intuition congruence.
Qed.

(** X5. The order of the pending list and repeated identities in it do not
    matter: two pending lists with the same members give every identity
    the same state and give the same verdict. *)
Theorem pending_order_is_irrelevant :
  forall (reviews : list Review) (pending pending' : list RequestedReviewer)
         (required : JS.JSNumber),
    (forall k, is_pending k pending <-> is_pending k pending') ->
    (forall k, JS.get k (codeReviewProgress reviews pending)
               = JS.get k (codeReviewProgress reviews pending')) /\
    isApproved (codeReviewProgress reviews pending) required
    = isApproved (codeReviewProgress reviews pending') required.
Proof.
  intros reviews pending pending' required Hsame.
  assert (Hget : forall k, JS.get k (codeReviewProgress reviews pending)
                           = JS.get k (codeReviewProgress reviews pending')).
  { intros k. unfold codeReviewProgress. rewrite !pending_pass_get.
    now rewrite (existsb_pending_iff k pending pending' (Hsame k)). }
  split; [exact Hget|].
  apply isApproved_permutation, same_lookups_permutation;
    [apply NoDup_keys_aggregate | apply NoDup_keys_aggregate | exact Hget].
Qed.

Lemma pending_order_is_irrelevant_witness :
  (forall k, is_pending k [request_of "bob"; request_of "carol"]
             <-> is_pending k [request_of "carol"; request_of "bob";
                               request_of "carol"]) /\
  isApproved
    (codeReviewProgress [review_by (Some "alice") Approved]
       [request_of "bob"; request_of "carol"]) (JS.of_Z 1)
  = isApproved
      (codeReviewProgress [review_by (Some "alice") Approved]
         [request_of "carol"; request_of "bob"; request_of "carol"])
      (JS.of_Z 1).
Proof.
  assert (H : forall k, is_pending k [request_of "bob"; request_of "carol"]
                        <-> is_pending k [request_of "carol"; request_of "bob";
                                          request_of "carol"]).
  { intros k. unfold is_pending. simpl. tauto. }
  split; [exact H|].
  exact (proj2 (pending_order_is_irrelevant
                  [review_by (Some "alice") Approved]
                  [request_of "bob"; request_of "carol"]
                  [request_of "carol"; request_of "bob"; request_of "carol"]
                  (JS.of_Z 1) H)).
Defined.

(** X6. Only a reviewer's last review matters: removing a review whose
    author posts again later leaves every identity's state and the
    verdict unchanged. *)
Theorem superseded_review_is_irrelevant :
  forall (pre post : list Review) (r : Review) (l : string)
         (pending : list RequestedReviewer) (required : JS.JSNumber),
    posted_by l r ->
    (exists r', In r' post /\ posted_by l r') ->
    (forall k, JS.get k (codeReviewProgress (pre ++ r :: post) pending)
               = JS.get k (codeReviewProgress (pre ++ post) pending)) /\
    isApproved (codeReviewProgress (pre ++ r :: post) pending) required
    = isApproved (codeReviewProgress (pre ++ post) pending) required.
Proof.
  intros pre post r l pending required Hr Hlater.
  assert (Hget : forall k,
             JS.get k (codeReviewProgress (pre ++ r :: post) pending)
             = JS.get k (codeReviewProgress (pre ++ post) pending)).
  { intros k. unfold codeReviewProgress. rewrite !pending_pass_get.
    destruct (existsb (String.eqb k) (map requested_login pending));
      [reflexivity|].
    rewrite !after_reviews_app, after_reviews_cons.
    apply after_reviews_get. unfold record_review. rewrite Hr.
    destruct (string_dec l k) as [->|Hne].
    - right. exact Hlater.
    - left. now apply get_set_other. }
  split; [exact Hget|].
  apply isApproved_permutation, same_lookups_permutation;
    [apply NoDup_keys_aggregate | apply NoDup_keys_aggregate | exact Hget].
Qed.

Lemma superseded_review_is_irrelevant_witness :
  posted_by "alice" (review_by (Some "alice") ChangesRequested) /\
  (exists r', In r' [review_by (Some "bob") Approved;
                     review_by (Some "alice") Approved]
              /\ posted_by "alice" r') /\
  isApproved
    (codeReviewProgress
       ([] ++ review_by (Some "alice") ChangesRequested
        :: [review_by (Some "bob") Approved;
            review_by (Some "alice") Approved]) []) (JS.of_Z 2)
  = isApproved
      (codeReviewProgress
         ([] ++ [review_by (Some "bob") Approved;
                 review_by (Some "alice") Approved]) []) (JS.of_Z 2).
Proof.
  assert (H : exists r', In r' [review_by (Some "bob") Approved;
                                review_by (Some "alice") Approved]
                         /\ posted_by "alice" r').
  { exists (review_by (Some "alice") Approved).
    split; [right; left; reflexivity | reflexivity]. }
  split; [reflexivity | split; [exact H|]].
  exact (proj2 (superseded_review_is_irrelevant []
                  [review_by (Some "bob") Approved;
                   review_by (Some "alice") Approved]
                  (review_by (Some "alice") ChangesRequested) "alice" []
                  (JS.of_Z 2) eq_refl H)).
Defined.

(** X7. Lowering an integer threshold never turns an approval into a
    refusal, and an approval under threshold [z] needs at least [z]
    reviewers in the aggregate. *)
Theorem approval_is_monotone_in_the_threshold :
  forall (m : JS.JSMap ReviewState) (z z' : Z),
    isApproved m (JS.of_Z z) = true ->
    ((z' <= z)%Z -> isApproved m (JS.of_Z z') = true) /\
    (z <= Z.of_nat (List.length m))%Z /\
    (approvesAmount m + changesRequestedAmount m <= List.length m)%nat.
Proof.
  intros m z z' H. unfold isApproved in *.
  apply andb_true_iff in H. destruct H as [Hge Hcr].
  apply ge_at_least in Hge. simpl in Hge. rewrite <- Zle_Qle in Hge.
  assert (Hbound : (approvesAmount m + changesRequestedAmount m
                    <= List.length m)%nat).
  { unfold approvesAmount, changesRequestedAmount, reviewStates, JS.values.
    rewrite <- (length_map snd m).
    induction (map snd m) as [|s l IH]; simpl; [lia|].
    destruct (String.eqb_spec s Approved) as [->|_]; simpl; [lia|].
    destruct (String.eqb s ChangesRequested); simpl; lia. }
  repeat split.
  - intros Hle. apply andb_true_iff. split; [|exact Hcr].
    apply ge_at_least. simpl. rewrite <- Zle_Qle. lia.
  - lia.
  - exact Hbound.
Qed.

Lemma approval_is_monotone_in_the_threshold_witness :
  isApproved [("A", Approved); ("B", Approved)] (JS.of_Z 2) = true /\
  isApproved [("A", Approved); ("B", Approved)] (JS.of_Z 1) = true.
Proof.
  split; [reflexivity|].
  apply (proj1 (approval_is_monotone_in_the_threshold
                  [("A", Approved); ("B", Approved)] 2 1 eq_refl)).
  lia.
Defined.
End VerdictInvariance.

(* ================================================================== *)
(** ** More on the lead-reviewer policy *)
(* ================================================================== *)

Section LeadVerdict.
Import Runtime Github Notions Observations LeadReviewers.

Lemma find_non_string (requested : JS.JSSet) (v : JS.JSVal) :
  (forall s, v <> JS.JString s) ->
  JS.find (fun requestedReviewer =>
             JS.strict_equal_string requestedReviewer v) requested = None.
Proof.
  intros Hv. unfold JS.find.
  induction requested as [|x l IH]; [reflexivity|].
  simpl. destruct v; try exact IH. now destruct (Hv s).
Qed.

(** The loop is a conjunction over the configured entries. *)
Lemma areLeadReviewersInvited_forallb (requested : JS.JSSet)
    (leadReviewers : list JS.JSVal) :
  areLeadReviewersInvited requested leadReviewers
  = forallb (lead_is_invited requested) leadReviewers.
Proof.
  induction leadReviewers as [|v l IH]; [reflexivity|].
  destruct v as [| |b|n|s|items|props];
    try (cbn [areLeadReviewersInvited forallb lead_is_invited andb];
         rewrite find_non_string by discriminate; reflexivity).
  rewrite invited_step. cbn [forallb lead_is_invited].
  destruct (in_dec string_dec s requested) as [Hin|Hnin].
  - apply has_In in Hin. now rewrite Hin.
  - destruct (JS.has s requested) eqn:E; [|reflexivity].
    apply has_In in E. contradiction.
Qed.

(** X8. The lead-reviewer verdict of a concatenation is the conjunction of
    the verdicts, so order and repetition of the configured reviewers do
    not matter; a larger invited set keeps a positive verdict; one entry
    that is not a string makes the verdict false. *)
Theorem lead_verdict_composes :
  forall (requested : JS.JSSet) (l1 l2 : list JS.JSVal),
    areLeadReviewersInvited requested (l1 ++ l2)
    = areLeadReviewersInvited requested l1
      && areLeadReviewersInvited requested l2 /\
    (Permutation l1 l2 ->
     areLeadReviewersInvited requested l1
     = areLeadReviewersInvited requested l2) /\
    (forall requested',
        incl requested requested' ->
        areLeadReviewersInvited requested l1 = true ->
        areLeadReviewersInvited requested' l1 = true) /\
    (forall v, In v l1 -> (forall s, v <> JS.JString s) ->
               areLeadReviewersInvited requested l1 = false).
Proof.
  intros requested l1 l2. rewrite !areLeadReviewersInvited_forallb.
  repeat split.
  - apply forallb_app.
  - intros Hp.
    destruct (forallb (lead_is_invited requested) l2) eqn:E2.
    + rewrite forallb_forall in *. intros x Hx. apply E2.
      now apply (Permutation_in _ Hp).
    + destruct (forallb (lead_is_invited requested) l1) eqn:E1;
        [|reflexivity].
      rewrite <- E2. symmetry. rewrite forallb_forall in *.
      intros x Hx. apply E1. now apply (Permutation_in _ (Permutation_sym Hp)).
  - intros requested' Hincl. rewrite !areLeadReviewersInvited_forallb.
    rewrite !forallb_forall. intros H x Hx. specialize (H x Hx).
    destruct x; simpl in *; try discriminate.
    apply has_In. apply Hincl. now apply has_In.
  - intros v Hin Hv.
    destruct (forallb (lead_is_invited requested) l1) eqn:E; [|reflexivity].
    rewrite forallb_forall in E. specialize (E v Hin).
    destruct v; simpl in E; try discriminate. now destruct (Hv s).
Qed.

Lemma lead_verdict_composes_witness :
  Permutation [JS.JString "X"; JS.JString "Y"; JS.JString "X"]
              [JS.JString "Y"; JS.JString "X"; JS.JString "X"] /\
  areLeadReviewersInvited ["X"; "Y"]
    [JS.JString "X"; JS.JString "Y"; JS.JString "X"]
  = areLeadReviewersInvited ["X"; "Y"]
      [JS.JString "Y"; JS.JString "X"; JS.JString "X"] /\
  areLeadReviewersInvited ["X"; "Y"]
    [JS.JString "X"; JS.JNumber (JS.of_Z 42)] = false.
Proof.
  assert (Hp : Permutation [JS.JString "X"; JS.JString "Y"; JS.JString "X"]
                 [JS.JString "Y"; JS.JString "X"; JS.JString "X"]).
  { apply perm_swap. }
  split; [exact Hp | split].
  - exact (proj1 (proj2 (lead_verdict_composes ["X"; "Y"] _ _)) Hp).
  - apply (proj2 (proj2 (proj2 (lead_verdict_composes ["X"; "Y"]
                                  [JS.JString "X"; JS.JNumber (JS.of_Z 42)]
                                  []))) (JS.JNumber (JS.of_Z 42)));
      [right; left; reflexivity | discriminate].
Defined.
End LeadVerdict.

(* ================================================================== *)
(** ** The approval invocations, end to end *)
(* ================================================================== *)

Section ApprovalRuns.
Import Runtime Github ReviewPolicy Notions Observations.

Lemma env_exists_iff (t r e : option string) :
  doesGithubEnvExist {| token := t; repositoryPath := r; eventPath := e |}
  = true <-> environment_is_set t r e.
Proof.
  unfold doesGithubEnvExist, environment_is_set. simpl.
  destruct t, r, e; split; intros H; try discriminate; try reflexivity;
    try (repeat split; discriminate);
    destruct H as [H1 [H2 H3]]; congruence.
Qed.

Lemma env_missing (t r e : option string) :
  t = None \/ r = None \/ e = None ->
  doesGithubEnvExist {| token := t; repositoryPath := r; eventPath := e |}
  = false.
Proof.
  intros H. destruct (doesGithubEnvExist _) eqn:E; [|reflexivity].
  apply env_exists_iff in E. destruct E as [H1 [H2 H3]].
  destruct H as [H|[H|H]]; contradiction.
Qed.

(** X9. When one of the three environment variables is missing, each of
    the three entry points raises the environment failure signal and does
    nothing else; when the event carries no pull request, each raises the
    pull-request failure signal and does nothing else. *)
Theorem guards_abort_with_one_signal :
  forall (w : ReviewPolicy.World) (lw : LeadReviewers.World),
    (GITHUB_TOKEN w = None \/ GITHUB_REPOSITORY w = None
     \/ GITHUB_EVENT_PATH w = None ->
     ReviewPolicyRegex.run w = ([SetFailed ENVIRONMENT_MESSAGE], inr tt) /\
     ReviewPolicyNumber.run w = ([SetFailed ENVIRONMENT_MESSAGE], inr tt)) /\
    (LeadReviewers.GITHUB_TOKEN lw = None
     \/ LeadReviewers.GITHUB_REPOSITORY lw = None
     \/ LeadReviewers.GITHUB_EVENT_PATH lw = None ->
     LeadReviewers.run lw = ([SetFailed ENVIRONMENT_MESSAGE], inr tt)) /\
    (forall payload,
        environment_is_set (GITHUB_TOKEN w) (GITHUB_REPOSITORY w)
          (GITHUB_EVENT_PATH w) ->
        getGithubPayload w (narrowed (GITHUB_EVENT_PATH w)) = inr payload ->
        pull_request payload = None ->
        ReviewPolicyRegex.run w = ([SetFailed PULL_REQUEST_MESSAGE], inr tt) /\
        ReviewPolicyNumber.run w = ([SetFailed PULL_REQUEST_MESSAGE], inr tt)) /\
    (environment_is_set (LeadReviewers.GITHUB_TOKEN lw)
       (LeadReviewers.GITHUB_REPOSITORY lw)
       (LeadReviewers.GITHUB_EVENT_PATH lw) ->
     LeadReviewers.context_pull_request lw = None ->
     LeadReviewers.run lw = ([SetFailed PULL_REQUEST_MESSAGE], inr tt)).
Proof.
  intros w lw. repeat split.
  - unfold ReviewPolicyRegex.run. now rewrite env_missing.
  - unfold ReviewPolicyNumber.run. now rewrite env_missing.
  - intros H. unfold LeadReviewers.run. now rewrite env_missing.
  - apply env_exists_iff in H. unfold ReviewPolicyRegex.run.
    rewrite H. cbn [negb eventPath]. rewrite H0.
    change (await (inr payload)) with (ret payload).
    now rewrite bind_ret_l, H1.
  - apply env_exists_iff in H. unfold ReviewPolicyNumber.run.
    rewrite H. cbn [negb eventPath]. rewrite H0.
    change (await (inr payload)) with (ret payload).
    now rewrite bind_ret_l, H1.
  - intros He Hpr. apply env_exists_iff in He. unfold LeadReviewers.run.
    now rewrite He, Hpr.
Qed.

Lemma guards_abort_with_one_signal_witness :
  environment_is_set (GITHUB_TOKEN Scenarios.issue_opened)
    (GITHUB_REPOSITORY Scenarios.issue_opened)
    (GITHUB_EVENT_PATH Scenarios.issue_opened) /\
  ReviewPolicyNumber.run Scenarios.issue_opened
  = ([SetFailed PULL_REQUEST_MESSAGE], inr tt).
Proof.
  assert (He : environment_is_set (GITHUB_TOKEN Scenarios.issue_opened)
                 (GITHUB_REPOSITORY Scenarios.issue_opened)
                 (GITHUB_EVENT_PATH Scenarios.issue_opened)).
  { repeat split; discriminate. }
  split; [exact He|].
  exact (proj2 (proj1 (proj2 (proj2 (guards_abort_with_one_signal
                  Scenarios.issue_opened
                  (Scenarios.lead_world JS.JNull JS.JNull))))
                  {| action := Some "opened"; pull_request := None |}
                  He eq_refl eq_refl)).
Defined.
End ApprovalRuns.

(* ================================================================== *)
(** ** Facts about binary64 *)
(* ================================================================== *)

Section Binary64Facts.

Lemma Qred_inject_Z (z : Z) : Qred (inject_Z z) = inject_Z z.
Proof. apply Qcanon.Qred_identity. simpl. apply Z.gcd_1_r. Qed.

Lemma binary64_Qeq (p q : Q) : p == q -> JS.binary64 p = JS.binary64 q.
Proof. intros H. unfold JS.binary64. now rewrite (Qred_complete p q H). Qed.

Lemma round_half_even_one (n : Z) : JS.round_half_even n 1 = n.
Proof.
  unfold JS.round_half_even. rewrite Z.mod_1_r, Z.div_1_r. reflexivity.
Qed.

Lemma round_half_even_ge (n d : Z) :
  (n / d <= JS.round_half_even n d)%Z.
Proof.
  unfold JS.round_half_even.
  destruct (2 * (n mod d) ?= d)%Z; [destruct (Z.even (n / d))| |]; lia.
Qed.

Lemma floor_log2_integer (a : Z) :
  (0 < a)%Z -> JS.floor_log2 a 1 = Z.log2 a.
Proof.
  intros Ha. unfold JS.floor_log2. change (Z.log2 1) with 0%Z.
  rewrite Z.sub_0_r.
  pose proof (Z.log2_nonneg a) as Hn.
  destruct (Z.leb_spec 0 (Z.log2 a)) as [_|H]; [|lia].
  pose proof (Z.log2_spec a Ha) as [Hlo _].
  destruct (Z.ltb_spec a (1 * 2 ^ Z.log2 a)) as [H|_]; [lia | reflexivity].
Qed.

Lemma Qred_scaled (a p : Z) :
  (0 < p)%Z -> Qred (Qmake (a * p) (Z.to_pos p)) = inject_Z a.
Proof.
  intros Hp. rewrite <- (Qred_inject_Z a). apply Qred_complete.
  unfold Qeq. simpl. rewrite Z2Pos.id by assumption. lia.
Qed.

(** A positive integer rounds to a positive integer or overflows. *)
Lemma binary64_positive_integer (a : Z) :
  (0 < a)%Z ->
  JS.binary64_positive a 1 = None \/
  exists z, (0 < z)%Z /\ JS.binary64_positive a 1 = Some (inject_Z z).
Proof.
  intros Ha. unfold JS.binary64_positive. rewrite floor_log2_integer by assumption.
  set (k := Z.max (Z.log2 a - 52) (-1074)).
  destruct (Z.leb_spec 0 k) as [Hk|Hk].
  - destruct (2 ^ 1024 <=? JS.round_half_even a (1 * 2 ^ k) * 2 ^ k)%Z;
      [now left|].
    right. eexists. split; [|reflexivity].
    assert (Hpow : (0 < 2 ^ k)%Z) by (apply Z.pow_pos_nonneg; lia).
    assert (Hle : (2 ^ k <= a)%Z).
    { pose proof (Z.log2_spec a Ha) as [Hlo _].
      apply Z.le_trans with (2 ^ Z.log2 a)%Z; [|exact Hlo].
      apply Z.pow_le_mono_r; [lia|]. unfold k. lia. }
    pose proof (round_half_even_ge a (1 * 2 ^ k)) as Hm.
    rewrite Z.mul_1_l in *.
    assert (1 <= a / 2 ^ k)%Z by (apply Z.div_le_lower_bound; lia).
    apply Z.mul_pos_pos; lia.
  - right. exists a. split; [assumption|].
    rewrite round_half_even_one. f_equal. apply Qred_scaled.
    apply Z.pow_pos_nonneg; lia.
Qed.

(** Below 2^53 an integer is its own Number value. *)
Lemma binary64_positive_exact (a : Z) :
  (0 < a < 2 ^ 53)%Z -> JS.binary64_positive a 1 = Some (inject_Z a).
Proof.
  intros [Ha Hlt]. unfold JS.binary64_positive.
  rewrite floor_log2_integer by assumption.
  assert (Hlog : (Z.log2 a < 53)%Z) by (apply Z.log2_lt_pow2; lia).
  set (k := Z.max (Z.log2 a - 52) (-1074)).
  destruct (Z.leb_spec 0 k) as [Hk|Hk].
  - assert (Hk0 : k = 0%Z) by (unfold k in *; lia).
    rewrite Hk0. change (2 ^ 0)%Z with 1%Z.
    rewrite !Z.mul_1_r, round_half_even_one.
    destruct (Z.leb_spec (2 ^ 1024) a) as [H|_]; [|reflexivity].
    exfalso. assert (2 ^ 53 < 2 ^ 1024)%Z by (apply Z.pow_lt_mono_r; lia). lia.
  - rewrite round_half_even_one. f_equal. apply Qred_scaled.
    apply Z.pow_pos_nonneg; lia.
Qed.

Lemma binary64_inject_Z_pos (p : positive) :
  JS.binary64 (inject_Z (Zpos p))
  = match JS.binary64_positive (Zpos p) 1 with
    | Some v => JS.JNum v
    | None => JS.JInf false
    end.
Proof. unfold JS.binary64. now rewrite Qred_inject_Z. Qed.

Lemma binary64_inject_Z_neg (p : positive) :
  JS.binary64 (inject_Z (Zneg p))
  = match JS.binary64_positive (Zpos p) 1 with
    | Some v => JS.JNum (- v)
    | None => JS.JInf true
    end.
Proof. unfold JS.binary64. now rewrite Qred_inject_Z. Qed.

(** The Number value for an integer is an integer or an infinity, of the
    same sign. *)
Lemma binary64_integer (z : Z) :
  (exists negative, JS.binary64 (inject_Z z) = JS.JInf negative
                    /\ (negative = true <-> (z < 0)%Z) /\ z <> 0%Z) \/
  exists z', JS.binary64 (inject_Z z) = JS.of_Z z'
             /\ ((0 < z)%Z <-> (0 < z')%Z).
Proof.
  destruct z as [|p|p].
  - right. exists 0%Z. split; [reflexivity | tauto].
  - rewrite binary64_inject_Z_pos.
    destruct (binary64_positive_integer (Zpos p)) as [->|[z' [Hz ->]]];
      [lia | |].
    + left. exists false. repeat split; try lia; discriminate.
    + right. exists z'. split; [reflexivity|]. split; lia.
  - rewrite binary64_inject_Z_neg.
    destruct (binary64_positive_integer (Zpos p)) as [->|[z' [Hz ->]]];
      [lia | |].
    + left. exists true. repeat split; try lia; discriminate.
    + right. exists (- z')%Z. split; [reflexivity|]. split; lia.
Qed.

Lemma binary64_exact (z : Z) :
  (0 < z < 2 ^ 53)%Z -> JS.binary64 (inject_Z z) = JS.of_Z z.
Proof.
  intros H. destruct z as [|p|p]; try lia.
  now rewrite binary64_inject_Z_pos, binary64_positive_exact.
Qed.
End Binary64Facts.

(* ================================================================== *)
(** ** More on the threshold *)
(* ================================================================== *)

Section ThresholdValues.
Import Runtime Github ReviewPolicy Notions Observations.

Lemma span_all (p : ascii -> bool) (l : list ascii) :
  forallb p l = true -> JS.span p l = (l, []).
Proof.
  induction l as [|c r IH]; [reflexivity|].
  simpl. destruct (p c); [|discriminate]. intros H. now rewrite IH.
Qed.

Lemma digit_not_whitespace c : JS.is_digit c = true -> JS.is_whitespace c = false.
Proof.
  destruct c as [[] [] [] [] [] [] [] []]; try discriminate; reflexivity.
Qed.

Lemma trim_start_digit c r : JS.is_digit c = true -> JS.trim_start (String c r) = String c r.
Proof. intros H. simpl. now rewrite digit_not_whitespace. Qed.

Lemma forallb_rev {A} (p : A -> bool) l : forallb p (rev l) = forallb p l.
Proof.
  induction l as [|a l IH]; [reflexivity|].
  simpl. rewrite forallb_app, IH. simpl. rewrite andb_true_r. apply andb_comm.
Qed.

Lemma trim_digits (s : string) :
  forallb JS.is_digit (JS.chars s) = true -> JS.trim s = s.
Proof.
  intros H. unfold JS.trim, JS.trim_start_chars, JS.chars in *.
  assert (Hts : JS.trim_start s = s).
  { destruct s as [|c r]; [reflexivity|]. simpl in H. apply andb_true_iff in H.
    apply trim_start_digit. tauto. }
  rewrite Hts.
  assert (Hr : forallb JS.is_digit (rev (list_ascii_of_string s)) = true)
    by now rewrite forallb_rev.
  destruct (rev (list_ascii_of_string s)) as [|c r] eqn:E.
  - simpl. apply (f_equal (@rev ascii)) in E. rewrite rev_involutive in E.
    simpl in E. rewrite <- (string_of_list_ascii_of_string s), E. reflexivity.
  - simpl in Hr. apply andb_true_iff in Hr.
    cbn [string_of_list_ascii]. rewrite trim_start_digit by tauto.
    change (String c (string_of_list_ascii r)) with (string_of_list_ascii (c :: r)).
    rewrite list_ascii_of_string_of_list_ascii, <- E, rev_involutive.
    apply string_of_list_ascii_of_string.
Qed.

Lemma Number_digits (s : string) :
  s <> EmptyString -> forallb JS.is_digit (JS.chars s) = true ->
  JS.Number s = JS.binary64 (inject_Z (decimal_value s)).
Proof.
  intros Hne Hd. unfold JS.Number. rewrite trim_digits by assumption.
  unfold decimal_value.
  destruct (JS.chars s) as [|c r] eqn:E.
  { destruct s; [congruence | discriminate]. }
  assert (Hlit : JS.unsigned_decimal_literal false (c :: r)
                 = JS.binary64
                     (inject_Z (JS.digits_value 10 JS.digit_value (c :: r)))).
  { unfold JS.unsigned_decimal_literal.
    assert (Hinf : JS.list_ascii_eqb (c :: r) (JS.chars "Infinity") = false).
    { simpl in Hd. apply andb_true_iff in Hd. destruct Hd as [Hc _].
      unfold JS.list_ascii_eqb. cbn [string_of_list_ascii JS.chars list_ascii_of_string String.eqb].
      destruct c as [[] [] [] [] [] [] [] []]; try discriminate Hc; reflexivity. }
    rewrite Hinf. unfold JS.unsigned_decimal.
    rewrite (span_all _ _ Hd). rewrite app_nil_r.
    cbn [JS.exponent_part List.length Z.of_nat Z.sub Qpower].
    apply binary64_Qeq. rewrite Qred_correct. simpl. ring. }
  simpl in Hd. apply andb_true_iff in Hd. destruct Hd as [Hc Hr].
  destruct c as [[] [] [] [] [] [] [] []]; try discriminate Hc; try exact Hlit.
  all: destruct r as [|c' r']; [exact Hlit|].
  all: simpl in Hr; apply andb_true_iff in Hr; destruct Hr as [Hc' _].
  all: destruct c' as [[] [] [] [] [] [] [] []]; try discriminate Hc'; exact Hlit.
Qed.

Lemma gt_of_Z (a b : Z) : JS.gt (JS.of_Z a) (JS.of_Z b) = (b <? a)%Z.
Proof.
  unfold JS.gt, JS.lt, JS.of_Z, Qle_bool. simpl.
  rewrite !Z.mul_1_r. symmetry. apply Z.ltb_antisym.
Qed.

Lemma parseInt10_cases (s : string) :
  JS.parseInt10 s = JS.JNaN \/
  exists z, JS.parseInt10 s = JS.binary64 (inject_Z z).
Proof.
  unfold JS.parseInt10.
  match goal with
  | |- context [let '(_, _) := ?X in _] => destruct X as [sign rest]
  end.
  destruct (fst (JS.span JS.is_digit rest)); [now left | right; eauto].
Qed.

Lemma parseInt10_digits (s : string) :
  s <> EmptyString -> forallb JS.is_digit (JS.chars s) = true ->
  JS.parseInt10 s = JS.binary64 (inject_Z (decimal_value s)).
Proof.
  intros Hne Hd. unfold JS.parseInt10, decimal_value.
  destruct s as [|c r]; [congruence|].
  pose proof Hd as Hd'. cbn [JS.chars list_ascii_of_string forallb] in Hd.
  apply andb_true_iff in Hd. destruct Hd as [Hc Hr].
  rewrite trim_start_digit by assumption.
  cbn [JS.chars list_ascii_of_string].
  assert (Hspan : fst (JS.span JS.is_digit (c :: list_ascii_of_string r))
                  = c :: list_ascii_of_string r).
  { now rewrite (span_all JS.is_digit (c :: list_ascii_of_string r) Hd'). }
  destruct c as [[] [] [] [] [] [] [] []]; try discriminate Hc;
    rewrite Hspan; now rewrite Z.mul_1_l.
Qed.

(** A Number value greater than 0 that comes from an integer is +Infinity
    or an integer of at least 1. *)
Lemma positive_binary64_integer (z : Z) :
  JS.gt (JS.binary64 (inject_Z z)) (JS.of_Z 0) = true ->
  JS.binary64 (inject_Z z) = JS.JInf false \/
  exists z', (1 <= z')%Z /\ JS.binary64 (inject_Z z) = JS.of_Z z'.
Proof.
  intros Hgt.
  destruct (binary64_integer z) as [[negative [E _]]|[z' [E _]]];
    rewrite E in *.
  - destruct negative; [discriminate Hgt | now left].
  - right. exists z'. rewrite gt_of_Z in Hgt. apply Z.ltb_lt in Hgt.
    split; [lia | reflexivity].
Qed.

(** The Number value for a positive integer is greater than 0. *)
Lemma binary64_of_positive (z : Z) :
  (0 < z)%Z ->
  JS.gt (JS.binary64 (inject_Z z)) (JS.of_Z 0) = true /\
  JS.isNaN (JS.binary64 (inject_Z z))
  || JS.le (JS.binary64 (inject_Z z)) (JS.of_Z 0) = false.
Proof.
  intros Hz.
  destruct (binary64_integer z) as [[negative [E [Hn _]]]|[z' [E Hz']]];
    rewrite E.
  - destruct negative; [|split; reflexivity].
    assert (z < 0)%Z by now apply Hn. lia.
  - assert (Hgt : JS.gt (JS.of_Z z') (JS.of_Z 0) = true).
    { rewrite gt_of_Z. apply Z.ltb_lt. now apply Hz'. }
    split; [exact Hgt|].
    unfold JS.le, JS.of_Z in *. cbn [JS.isNaN negb andb orb].
    unfold JS.gt in Hgt. now rewrite Hgt.
Qed.

Lemma regex_threshold_cases (w : World) :
  exists t,
    ReviewPolicyRegex.getRequiredApprovesAmount w = ret t /\
    (t = JS.JInf false \/ exists z, (1 <= z)%Z /\ t = JS.of_Z z).
Proof.
  unfold ReviewPolicyRegex.getRequiredApprovesAmount.
  set (s := getInput w RequiredApprovesAmount).
  assert (Hdefault : DEFAULT_AMOUNT = JS.JInf false
                     \/ exists z, (1 <= z)%Z /\ DEFAULT_AMOUNT = JS.of_Z z).
  { right. exists 1%Z. split; [lia | reflexivity]. }
  destruct (JS.test_d12 s); [|now exists DEFAULT_AMOUNT].
  destruct (JS.gt (JS.parseInt10 s) (JS.of_Z 0)) eqn:E;
    [|now exists DEFAULT_AMOUNT].
  exists (JS.parseInt10 s). split; [reflexivity|].
  destruct (parseInt10_cases s) as [Hn|[z Hz]].
  - rewrite Hn in E. discriminate E.
  - rewrite Hz in *. now apply positive_binary64_integer.
Qed.

Lemma isApproved_needs_an_approval m (t : JS.JSNumber) :
  t = JS.JInf false \/ (exists z, (1 <= z)%Z /\ t = JS.of_Z z) ->
  isApproved m t = true -> (1 <= approvesAmount m)%nat.
Proof.
  intros [->|[z [Hz ->]]] H; [discriminate H|].
  unfold isApproved in H. apply andb_true_iff in H.
  destruct H as [H _]. apply ge_at_least in H. simpl in H.
  rewrite <- Zle_Qle in H. lia.
Qed.

(** X10. In the regex variant the threshold is, for every input, either an
    integer of at least 1 or +Infinity (a digit string beyond the binary64
    range), read without raising anything; an aggregate without any
    approval is therefore never approved. *)
Theorem regex_threshold_is_at_least_one :
  forall (w : World),
  exists t,
    ReviewPolicyRegex.getRequiredApprovesAmount w = ret t /\
    (t = JS.JInf false \/ exists z, (1 <= z)%Z /\ t = JS.of_Z z) /\
    (forall m, isApproved m t = true -> (1 <= approvesAmount m)%nat).
Proof.
  intros w. destruct (regex_threshold_cases w) as [t [Hw Ht]].
  exists t. split; [exact Hw | split; [exact Ht|]].
  intros m. now apply isApproved_needs_an_approval.
Qed.

Lemma regex_threshold_is_at_least_one_witness :
  exists t,
    ReviewPolicyRegex.getRequiredApprovesAmount
      (Scenarios.submitted_with_input "0") = ret t /\
    (isApproved [("bob", Pending)] t = true ->
     (1 <= approvesAmount [("bob", Pending)])%nat).
Proof.
  destruct (regex_threshold_is_at_least_one
              (Scenarios.submitted_with_input "0")) as [t [Hw [_ Hm]]].
  exists t. split; [exact Hw | apply Hm].
Defined.

Lemma is_positive_integer_spec (s : string) :
  is_positive_integer s = true ->
  s <> EmptyString /\ forallb JS.is_digit (JS.chars s) = true
  /\ (0 < decimal_value s)%Z.
Proof.
  unfold is_positive_integer. rewrite !andb_true_iff, negb_true_iff.
  intros [[H1 H2] H3]. repeat split; [|exact H2 | now apply Z.ltb_lt].
  intros ->. discriminate H1.
Qed.

Lemma thresholds_on_positive_integers (w : World) :
  is_positive_integer (getInput w RequiredApprovesAmount) = true ->
  ReviewPolicyRegex.getRequiredApprovesAmount w
  = ret (JS.binary64
           (inject_Z (decimal_value (getInput w RequiredApprovesAmount)))) /\
  ReviewPolicyNumber.getRequiredApprovesAmount w
  = ret (JS.binary64
           (inject_Z (decimal_value (getInput w RequiredApprovesAmount)))).
Proof.
  intros H. apply is_positive_integer_spec in H. destruct H as [Hne [Hd Hpos]].
  unfold ReviewPolicyRegex.getRequiredApprovesAmount,
    ReviewPolicyNumber.getRequiredApprovesAmount.
  set (s := getInput w RequiredApprovesAmount) in *.
  destruct (binary64_of_positive (decimal_value s) Hpos) as [Hgt Hok].
  split.
  - assert (Ht : JS.test_d12 s = true).
    { unfold JS.test_d12. destruct s as [|c r]; [congruence|].
      cbn [JS.chars list_ascii_of_string forallb] in Hd.
      apply andb_true_iff in Hd. destruct Hd as [Hc _].
      cbn [JS.chars list_ascii_of_string JS.test_d12_from JS.match_d12].
      rewrite Hc. now destruct (list_ascii_of_string r) as [|c' r'];
        [|destruct (JS.is_digit c')]. }
    now rewrite Ht, parseInt10_digits, Hgt by assumption.
  - destruct (String.eqb_spec s EmptyString) as [E|_]; [contradiction|].
    now rewrite Number_digits, Hok by assumption.
Qed.

(** X11. On an input that is a positive integer in decimal digits the two
    variants read the same threshold, the Number value for the integer
    the digits denote (the integer itself below 2^53), and raise no
    failure signal. *)
Theorem variants_agree_on_positive_integers :
  forall (w : World),
    is_positive_integer (getInput w RequiredApprovesAmount) = true ->
    ReviewPolicyRegex.getRequiredApprovesAmount w
    = ret (JS.binary64
             (inject_Z (decimal_value (getInput w RequiredApprovesAmount)))) /\
    ReviewPolicyNumber.getRequiredApprovesAmount w
    = ReviewPolicyRegex.getRequiredApprovesAmount w /\
    ((decimal_value (getInput w RequiredApprovesAmount) < 2 ^ 53)%Z ->
     ReviewPolicyRegex.getRequiredApprovesAmount w
     = ret (JS.of_Z (decimal_value (getInput w RequiredApprovesAmount)))) /\
    (1 <= decimal_value (getInput w RequiredApprovesAmount))%Z.
Proof.
  intros w H. destruct (thresholds_on_positive_integers w H) as [H1 H2].
  apply is_positive_integer_spec in H. destruct H as [_ [_ Hpos]].
  split; [exact H1 | split; [congruence | split; [|lia]]].
  intros Hlt. rewrite H1. now rewrite binary64_exact by lia.
Qed.

Lemma variants_agree_on_positive_integers_witness :
  is_positive_integer
    (getInput (Scenarios.submitted_with_input "12") RequiredApprovesAmount)
  = true /\
  ReviewPolicyNumber.getRequiredApprovesAmount
    (Scenarios.submitted_with_input "12") = ret (JS.of_Z 12) /\
  ReviewPolicyNumber.getRequiredApprovesAmount
    (Scenarios.submitted_with_input "9007199254740993")
  = ret (JS.of_Z 9007199254740992).
Proof.
  split; [reflexivity|].
  destruct (variants_agree_on_positive_integers
              (Scenarios.submitted_with_input "12") eq_refl)
    as [_ [H2 [H3 _]]].
  split.
  - rewrite H2. apply H3. reflexivity.
  - destruct (variants_agree_on_positive_integers
                (Scenarios.submitted_with_input "9007199254740993") eq_refl)
      as [H1 [H2' _]].
    rewrite H2', H1. reflexivity.
Defined.
End ThresholdValues.

(* ================================================================== *)
(** ** The approval invocations past their guards *)
(* ================================================================== *)

Section ApprovalVerdicts.
Import Runtime Github ReviewPolicy Notions Observations.

Lemma decide_and_report_observed m t :
  published (trace (decide_and_report m t))
  = [(IsApproved, boolean_string (isApproved m t))] /\
  failures (trace (decide_and_report m t)) = [] /\
  outcome (decide_and_report m t) = inr tt.
Proof.
  unfold decide_and_report. now destruct (isApproved m t).
Qed.

(** The threshold enters the decision and its summary through the
    verdict only. *)
Lemma decide_and_report_verdict m (t t' : JS.JSNumber) :
  isApproved m t = isApproved m t' ->
  decide_and_report m t = decide_and_report m t'.
Proof. unfold decide_and_report. now intros ->. Qed.

Lemma isApproved_beyond m :
  isApproved m (JS.of_Z (Z.of_nat (approvesAmount m) + 1)) = false.
Proof.
  unfold isApproved.
  destruct (JS.ge (JS.of_nat (approvesAmount m))
              (JS.of_Z (Z.of_nat (approvesAmount m) + 1))) eqn:E;
    [|reflexivity].
  apply ge_at_least in E. simpl in E. rewrite <- Zle_Qle in E. lia.
Qed.

Lemma regex_run_past_guards w payload pr :
  event_is w payload pr ->
  ReviewPolicyRegex.isAcceptableAction (action payload) = true ->
  ReviewPolicyRegex.run w
  = try_catch
      (requiredApprovesAmount <- ReviewPolicyRegex.getRequiredApprovesAmount w ;;
       postedReviews <- await (listReviews w (request_of_world w pr)) ;;
       requestedReviewers <-
         await (listRequestedReviewers w (request_of_world w pr)) ;;
       decide_and_report (codeReviewProgress postedReviews requestedReviewers)
         requiredApprovesAmount)%action
      report_error.
Proof.
  intros [He [Hp Hpr]] Hacc. apply env_exists_iff in He.
  unfold ReviewPolicyRegex.run. rewrite He. cbn [negb eventPath].
  rewrite Hp. change (await (inr payload)) with (ret payload).
  now rewrite bind_ret_l, Hpr, Hacc.
Qed.

Lemma number_run_past_guards w payload pr :
  event_is w payload pr ->
  ReviewPolicyNumber.run w
  = try_catch
      (requiredApprovesAmount <- ReviewPolicyNumber.getRequiredApprovesAmount w ;;
       '(postedReviews, requestedReviewers) <-
         Promise_all2 (listReviews_rejects_first w)
                      (listReviews w (request_of_world w pr))
                      (listRequestedReviewers w (request_of_world w pr)) ;;
       decide_and_report (codeReviewProgress postedReviews requestedReviewers)
         requiredApprovesAmount)%action
      report_error.
Proof.
  intros [He [Hp Hpr]]. apply env_exists_iff in He.
  unfold ReviewPolicyNumber.run. rewrite He. cbn [negb eventPath].
  rewrite Hp. change (await (inr payload)) with (ret payload).
  now rewrite bind_ret_l, Hpr.
Qed.

Lemma number_threshold_read (w : World) :
  ReviewPolicyNumber.getRequiredApprovesAmount w
  = (map SetFailed
       (number_threshold_failures (getInput w RequiredApprovesAmount)),
     inr (number_threshold (getInput w RequiredApprovesAmount))).
Proof.
  unfold ReviewPolicyNumber.getRequiredApprovesAmount, number_threshold,
    number_threshold_failures.
  destruct (String.eqb _ EmptyString); [reflexivity|].
  now destruct (JS.isNaN _ || JS.le _ _).
Qed.

Lemma bind_value {A B : Type} (t : list Event) (a : A) (k : A -> Action B) :
  bind (t, inr a) k = ((t ++ trace (k a))%list, outcome (k a)).
Proof. unfold bind, trace, outcome. now destruct (k a). Qed.

Lemma failures_map_SetFailed (l : list string) :
  failures (map SetFailed l) = l /\ published (map SetFailed l) = [].
Proof.
  induction l as [|x l [IH1 IH2]]; [now split|].
  simpl. split; [now rewrite IH1 | exact IH2].
Qed.

(** X12. Regex variant, end to end: on a supported review event whose two
    requests are answered, the invocation is exactly the decision and its
    summary on the aggregate, for a threshold that is an integer of at
    least 1; one output is published, carrying the verdict, and no failure
    signal is raised. *)
Theorem regex_run_publishes_the_verdict :
  forall (w : World) (payload : WebhookPayload) (pr : PullRequest)
         (reviews : list Review) (pending : list RequestedReviewer),
    event_is w payload pr ->
    ReviewPolicyRegex.isAcceptableAction (action payload) = true ->
    fetched w pr reviews pending ->
    exists z,
      (1 <= z)%Z /\
      ReviewPolicyRegex.run w
      = decide_and_report (codeReviewProgress reviews pending) (JS.of_Z z) /\
      published (trace (ReviewPolicyRegex.run w))
      = [(IsApproved,
          boolean_string
            (isApproved (codeReviewProgress reviews pending) (JS.of_Z z)))] /\
      failures (trace (ReviewPolicyRegex.run w)) = [].
Proof.
  intros w payload pr reviews pending Hev Hacc [Hr Hp].
  destruct (regex_threshold_cases w) as [t [Ht Hshape]].
  set (m := codeReviewProgress reviews pending).
  assert (Hrun : ReviewPolicyRegex.run w = decide_and_report m t).
  { rewrite (regex_run_past_guards w payload pr Hev Hacc), Ht, Hr, Hp.
    change (await (inr reviews)) with (ret reviews).
    change (await (inr pending)) with (ret pending).
    rewrite !bind_ret_l. apply try_catch_normal.
    apply decide_and_report_observed. }
  assert (Hz : exists z, (1 <= z)%Z
                         /\ decide_and_report m t
                            = decide_and_report m (JS.of_Z z)).
  { destruct Hshape as [->|[z [Hz ->]]].
    - exists (Z.of_nat (approvesAmount m) + 1)%Z. split; [lia|].
      apply decide_and_report_verdict.
      now rewrite isApproved_beyond.
    - exists z. split; [exact Hz | reflexivity]. }
  destruct Hz as [z [Hz Heq]]. exists z. split; [exact Hz|].
  rewrite Hrun, Heq. split; [reflexivity|].
  split; apply decide_and_report_observed.
Qed.

Lemma regex_run_publishes_the_verdict_witness :
  event_is (Scenarios.submitted_with_input "1")
    {| action := Some "submitted"; pull_request := Some {| number := 7 |} |}
    {| number := 7 |} /\
  published
    (trace (ReviewPolicyRegex.run (Scenarios.submitted_with_input "1")))
  = [(IsApproved, "true")].
Proof.
  assert (Hev : event_is (Scenarios.submitted_with_input "1")
                  {| action := Some "submitted";
                     pull_request := Some {| number := 7 |} |}
                  {| number := 7 |}).
  { repeat split; discriminate. }
  split; [exact Hev|].
  destruct (regex_run_publishes_the_verdict
              (Scenarios.submitted_with_input "1") _ _
              [review_by (Some "alice") Approved] []
              Hev eq_refl (conj eq_refl eq_refl)) as [z [_ [Hrun _]]].
  reflexivity.
Defined.

Lemma number_run_observed w payload pr reviews pending :
  event_is w payload pr ->
  fetched w pr reviews pending ->
  published (trace (ReviewPolicyNumber.run w))
  = [(IsApproved,
      boolean_string
        (isApproved (codeReviewProgress reviews pending)
           (number_threshold (getInput w RequiredApprovesAmount))))] /\
  failures (trace (ReviewPolicyNumber.run w))
  = number_threshold_failures (getInput w RequiredApprovesAmount).
Proof.
  intros Hev [Hr Hp].
  rewrite (number_run_past_guards w payload pr Hev), number_threshold_read,
    Hr, Hp.
  cbn [Promise_all2].
  set (t := number_threshold _). set (fs := number_threshold_failures _).
  set (m := codeReviewProgress reviews pending).
  destruct (decide_and_report_observed m t) as [Hpub [Hfail Hout]].
  rewrite bind_value, bind_ret_l. cbn beta iota. fold m.
  rewrite Hout. cbn [try_catch trace fst].
  rewrite published_app, failures_app, Hpub, Hfail.
  destruct (failures_map_SetFailed fs) as [H1 H2].
  rewrite H1, H2, app_nil_r. split; reflexivity.
Qed.

(** X13. Number variant, end to end: on a readable pull-request event
    whose two requests are answered, one output is published, carrying
    the verdict for the threshold read from the input (1 when the input
    is empty, its Number value otherwise); the only failure signal is the
    one raised for a threshold that is NaN or not greater than 0. *)
Theorem number_run_publishes_the_verdict :
  forall (w : World) (payload : WebhookPayload) (pr : PullRequest)
         (reviews : list Review) (pending : list RequestedReviewer),
    event_is w payload pr ->
    fetched w pr reviews pending ->
    published (trace (ReviewPolicyNumber.run w))
    = [(IsApproved,
        boolean_string
          (isApproved (codeReviewProgress reviews pending)
             (number_threshold (getInput w RequiredApprovesAmount))))] /\
    failures (trace (ReviewPolicyNumber.run w))
    = number_threshold_failures (getInput w RequiredApprovesAmount) /\
    (getInput w RequiredApprovesAmount = EmptyString ->
     failures (trace (ReviewPolicyNumber.run w)) = [] /\
     number_threshold (getInput w RequiredApprovesAmount) = DEFAULT_AMOUNT).
Proof.
  intros w payload pr reviews pending Hev Hf.
  destruct (number_run_observed w payload pr reviews pending Hev Hf)
    as [H1 H2].
  repeat split; [exact H1 | exact H2 | |].
  - rewrite H2. unfold number_threshold_failures. now rewrite H.
  - unfold number_threshold. now rewrite H.
Qed.

Lemma number_run_publishes_the_verdict_witness :
  event_is (Scenarios.submitted_with_input "") Cases.submitted_7
    {| number := 7 |} /\
  fetched (Scenarios.submitted_with_input "") {| number := 7 |}
    [review_by (Some "alice") Approved] [] /\
  published
    (trace (ReviewPolicyNumber.run (Scenarios.submitted_with_input "")))
  = [(IsApproved, "true")] /\
  published
    (trace (ReviewPolicyNumber.run
              (Scenarios.submitted_with_input "1.0000000000000000001")))
  = [(IsApproved, "true")] /\
  failures
    (trace (ReviewPolicyNumber.run (Scenarios.submitted_with_input "1e-400")))
  = [THRESHOLD_MESSAGE].
Proof.
  assert (Hev : forall input,
             event_is (Scenarios.submitted_with_input input) Cases.submitted_7
               {| number := 7 |}).
  { intros input. repeat split; discriminate. }
  assert (Hf : forall input,
             fetched (Scenarios.submitted_with_input input) {| number := 7 |}
               [review_by (Some "alice") Approved] [])
    by (intros input; split; reflexivity).
  split; [apply Hev | split; [apply Hf|]].
  split; [|split].
  - exact (proj1 (number_run_publishes_the_verdict
                    (Scenarios.submitted_with_input "") _ _ _ _
                    (Hev _) (Hf _))).
  - exact (proj1 (number_run_publishes_the_verdict
                    (Scenarios.submitted_with_input "1.0000000000000000001")
                    _ _ _ _ (Hev _) (Hf _))).
  - exact (proj1 (proj2 (number_run_publishes_the_verdict
                           (Scenarios.submitted_with_input "1e-400")
                           _ _ _ _ (Hev _) (Hf _)))).
Defined.
End ApprovalVerdicts.

Section ApprovalEdges.
Import Runtime Github ReviewPolicy Notions Observations.

Lemma isApproved_NaN m : isApproved m JS.JNaN = false.
Proof. reflexivity. Qed.

Lemma isApproved_nonpositive m (t : JS.JSNumber) :
  JS.le t (JS.of_Z 0) = true ->
  isApproved m t = Nat.eqb (changesRequestedAmount m) 0.
Proof.
  intros Hle. unfold isApproved.
  assert (Hge : JS.ge (JS.of_nat (approvesAmount m)) t = true).
  { apply ge_at_least. destruct t as [|[|]|q]; simpl in *;
      try discriminate; [reflexivity|].
    unfold JS.le, JS.lt, JS.of_Z in Hle. simpl in Hle.
    rewrite negb_involutive in Hle. apply Qle_bool_iff in Hle.
    eapply Qle_trans; [exact Hle|].
    change 0%Q with (inject_Z 0). rewrite <- Zle_Qle. lia. }
  now rewrite Hge.
Qed.

(** X14. Number variant with a rejected threshold: the failure signal is
    raised and the invocation still decides and publishes. With NaN the
    output is "false"; with a value not greater than 0 the output is
    "true" as soon as nobody requests changes, however few approvals
    there are. *)
Theorem rejected_threshold_still_decides :
  forall (w : World) (payload : WebhookPayload) (pr : PullRequest)
         (reviews : list Review) (pending : list RequestedReviewer),
    event_is w payload pr ->
    fetched w pr reviews pending ->
    getInput w RequiredApprovesAmount <> EmptyString ->
    (JS.Number (getInput w RequiredApprovesAmount) = JS.JNaN ->
     published (trace (ReviewPolicyNumber.run w)) = [(IsApproved, "false")] /\
     failures (trace (ReviewPolicyNumber.run w)) = [THRESHOLD_MESSAGE]) /\
    (JS.le (JS.Number (getInput w RequiredApprovesAmount)) (JS.of_Z 0) = true ->
     published (trace (ReviewPolicyNumber.run w))
     = [(IsApproved,
         boolean_string
           (Nat.eqb (changesRequestedAmount
                       (codeReviewProgress reviews pending)) 0))] /\
     failures (trace (ReviewPolicyNumber.run w)) = [THRESHOLD_MESSAGE]).
Proof.
  intros w payload pr reviews pending Hev Hf Hne.
  destruct (number_run_observed w payload pr reviews pending Hev Hf)
    as [Hpub Hfail].
  rewrite Hpub, Hfail. unfold number_threshold, number_threshold_failures.
  destruct (String.eqb_spec (getInput w RequiredApprovesAmount) EmptyString)
    as [E|_]; [contradiction|].
  split.
  - intros Hn. rewrite Hn. split; reflexivity.
  - intros Hle. rewrite Hle, orb_true_r.
    now rewrite (isApproved_nonpositive _ _ Hle).
Qed.

Lemma rejected_threshold_still_decides_witness :
  JS.le (JS.Number "0") (JS.of_Z 0) = true /\
  published (trace (ReviewPolicyNumber.run Cases.zero_threshold))
  = [(IsApproved, "true")].
Proof.
  split; [reflexivity|].
  refine (proj1 (proj2 (rejected_threshold_still_decides
                          Cases.zero_threshold Cases.submitted_7
                          {| number := 7 |} [] [] _ _ _) eq_refl)).
  - repeat split; discriminate.
  - split; reflexivity.
  - discriminate.
Defined.

Lemma number_run_after_threshold w payload pr :
  event_is w payload pr ->
  published (trace (ReviewPolicyNumber.run w))
  = match outcome (Promise_all2 (listReviews_rejects_first w)
                     (listReviews w (request_of_world w pr))
                     (listRequestedReviewers w (request_of_world w pr))) with
    | inr (reviews, pending) =>
        [(IsApproved,
          boolean_string
            (isApproved (codeReviewProgress reviews pending)
               (number_threshold (getInput w RequiredApprovesAmount))))]
    | inl _ => []
    end /\
  failures (trace (ReviewPolicyNumber.run w))
  = (number_threshold_failures (getInput w RequiredApprovesAmount) ++
     match outcome (Promise_all2 (listReviews_rejects_first w)
                      (listReviews w (request_of_world w pr))
                      (listRequestedReviewers w (request_of_world w pr))) with
     | inr _ => []
     | inl e => failures (trace (report_error e))
     end)%list.
Proof.
  intros Hev.
  rewrite (number_run_past_guards w payload pr Hev), number_threshold_read,
    bind_value.
  destruct (failures_map_SetFailed
              (number_threshold_failures (getInput w RequiredApprovesAmount)))
    as [H1 H2].
  destruct (listReviews w (request_of_world w pr)) as [e1|reviews];
    destruct (listRequestedReviewers w (request_of_world w pr))
      as [e2|pending]; cbn [Promise_all2].
  4:{ rewrite bind_ret_l. cbn beta iota.
      destruct (decide_and_report_observed
                  (codeReviewProgress reviews pending)
                  (number_threshold (getInput w RequiredApprovesAmount)))
        as [Hpub [Hfail Hout]].
      rewrite Hout. cbn [try_catch trace fst outcome snd ret].
      rewrite published_app, failures_app, H1, H2, Hpub, Hfail.
      split; reflexivity. }
  all: cbn [bind throw trace fst outcome snd try_catch].
  all: match goal with
       | |- context [report_error ?e] => destruct (report_error e) eqn:Er
       end.
  all: cbn [trace fst outcome snd]; rewrite !app_nil_r.
  all: rewrite published_app, failures_app, H1, H2.
  all: match goal with
       | Er : report_error ?e = _ |- _ =>
           pose proof (published_report_error e) as Hp;
           rewrite Er in Hp; cbn [trace fst] in Hp; rewrite Hp
       end.
  all: split; reflexivity.
Qed.

(** X15. An exception is reported by its message and nothing is published:
    an unreadable event payload in both variants; a failed review request
    in the regex variant, where the requests are sent one after the other
    and the first failure is the only event; in the Number variant, where
    both requests are sent at once, the failure of one of them after the
    failure signal of a rejected threshold if there is one, and, when both
    fail, one of the two messages. *)
Theorem thrown_errors_are_reported :
  forall (w : World) (message : string),
    environment_is_set (GITHUB_TOKEN w) (GITHUB_REPOSITORY w)
      (GITHUB_EVENT_PATH w) ->
    (getGithubPayload w (narrowed (GITHUB_EVENT_PATH w))
     = inl (ThrownError message) ->
     ReviewPolicyRegex.run w = ([SetFailed message], inr tt) /\
     ReviewPolicyNumber.run w = ([SetFailed message], inr tt)) /\
    (forall payload pr,
        event_is w payload pr ->
        (ReviewPolicyRegex.isAcceptableAction (action payload) = true ->
         listReviews w (request_of_world w pr) = inl (ThrownError message)
         \/ (exists reviews,
                listReviews w (request_of_world w pr) = inr reviews /\
                listRequestedReviewers w (request_of_world w pr)
                = inl (ThrownError message)) ->
         ReviewPolicyRegex.run w = ([SetFailed message], inr tt)) /\
        ((listReviews w (request_of_world w pr) = inl (ThrownError message) /\
          exists pending,
            listRequestedReviewers w (request_of_world w pr) = inr pending)
         \/ (exists reviews,
                listReviews w (request_of_world w pr) = inr reviews /\
                listRequestedReviewers w (request_of_world w pr)
                = inl (ThrownError message)) ->
         published (trace (ReviewPolicyNumber.run w)) = [] /\
         failures (trace (ReviewPolicyNumber.run w))
         = (number_threshold_failures (getInput w RequiredApprovesAmount)
            ++ [message])%list) /\
        (forall other,
            listReviews w (request_of_world w pr)
            = inl (ThrownError message) ->
            listRequestedReviewers w (request_of_world w pr)
            = inl (ThrownError other) ->
            published (trace (ReviewPolicyNumber.run w)) = [] /\
            exists reported,
              (reported = message \/ reported = other) /\
              failures (trace (ReviewPolicyNumber.run w))
              = (number_threshold_failures
                   (getInput w RequiredApprovesAmount)
                 ++ [reported])%list)).
Proof.
  intros w message He. split.
  - intros Hp. apply env_exists_iff in He.
    unfold ReviewPolicyRegex.run, ReviewPolicyNumber.run.
    rewrite He. cbn [negb eventPath]. rewrite Hp. split; reflexivity.
  - intros payload pr Hev.
    destruct (number_run_after_threshold w payload pr Hev) as [Hpub Hfail].
    split; [|split].
    + intros Hacc Hfetch.
      rewrite (regex_run_past_guards w payload pr Hev Hacc).
      destruct (regex_threshold_cases w) as [t [Ht _]].
      rewrite Ht, bind_ret_l.
      destruct Hfetch as [Hr|[reviews [Hr Hq]]]; rewrite Hr.
      * reflexivity.
      * change (await (inr reviews)) with (ret reviews).
        now rewrite bind_ret_l, Hq.
    + intros [[Hr [pending Hq]]|[reviews [Hr Hq]]];
        rewrite Hpub, Hfail, Hr, Hq; split; reflexivity.
    + intros other Hr Hq. rewrite Hpub, Hfail, Hr, Hq.
      split; [reflexivity|]. cbn [Promise_all2 throw outcome snd].
      destruct (listReviews_rejects_first w);
        [exists message | exists other]; split; auto.
Qed.

Lemma thrown_errors_are_reported_witness :
  ReviewPolicyRegex.run Cases.unreadable_event
  = ([SetFailed "ENOENT"], inr tt) /\
  failures (trace (ReviewPolicyNumber.run Cases.reviews_unavailable))
  = ["Incorrect value of the `requiredApprovesAmount` input";
     "Bad credentials"].
Proof.
  split.
  - refine (proj1 (proj1 (thrown_errors_are_reported Cases.unreadable_event
                            "ENOENT" _) eq_refl)).
    repeat split; discriminate.
  - refine (proj2 (proj1 (proj2 (proj2 (thrown_errors_are_reported
              Cases.reviews_unavailable "Bad credentials" _)
              Cases.submitted_7 {| number := 7 |} _)) _)).
    + repeat split; discriminate.
    + split; [repeat split; discriminate | split; reflexivity].
    + left. split; [reflexivity | now exists []].
Defined.
End ApprovalEdges.

Section ApprovalOutputs.
Import Runtime Github ReviewPolicy Notions Observations.

(** What the regex variant publishes, and when. *)
Lemma regex_run_outputs (w : World) :
  published (trace (ReviewPolicyRegex.run w)) = [] \/
  exists payload pr reviews pending b,
    event_is w payload pr /\
    ReviewPolicyRegex.isAcceptableAction (action payload) = true /\
    fetched w pr reviews pending /\
    published (trace (ReviewPolicyRegex.run w))
    = [(IsApproved, boolean_string b)].
Proof.
  unfold ReviewPolicyRegex.run. rewrite published_try_catch_report.
  destruct (doesGithubEnvExist _) eqn:He; cbn [negb]; [|now left].
  apply env_exists_iff in He. cbn [eventPath].
  destruct (getGithubPayload w _) as [e|payload] eqn:Hp; [now left|].
  change (await (inr payload)) with (ret payload). rewrite bind_ret_l.
  destruct (pull_request payload) as [pr|] eqn:Hpr; [|now left].
  destruct (ReviewPolicyRegex.isAcceptableAction _) eqn:Hacc; [|now left].
  unfold ReviewPolicyRegex.review.
  destruct (regex_threshold_cases w) as [t [Ht _]].
  rewrite Ht, bind_ret_l. cbn [repositoryPath].
  fold (request_of_world w pr).
  destruct (listReviews w _) as [e|reviews] eqn:Hr; [now left|].
  change (await (inr reviews)) with (ret reviews). rewrite bind_ret_l.
  destruct (listRequestedReviewers w _) as [e|pending] eqn:Hq; [now left|].
  change (await (inr pending)) with (ret pending). rewrite bind_ret_l.
  right. exists payload, pr, reviews, pending.
  eexists. split; [exact (conj He (conj Hp Hpr))|].
  split; [exact Hacc|]. split; [exact (conj Hr Hq)|].
  apply decide_and_report_observed.
Qed.

(** What the Number variant publishes, and when. *)
Lemma number_run_outputs (w : World) :
  published (trace (ReviewPolicyNumber.run w)) = [] \/
  exists payload pr reviews pending b,
    event_is w payload pr /\
    fetched w pr reviews pending /\
    published (trace (ReviewPolicyNumber.run w))
    = [(IsApproved, boolean_string b)].
Proof.
  destruct (doesGithubEnvExist
              {| token := GITHUB_TOKEN w;
                 repositoryPath := GITHUB_REPOSITORY w;
                 eventPath := GITHUB_EVENT_PATH w |}) eqn:He.
  2:{ left. unfold ReviewPolicyNumber.run. now rewrite He. }
  destruct (getGithubPayload w (narrowed (GITHUB_EVENT_PATH w)))
    as [e|payload] eqn:Hp.
  { left. unfold ReviewPolicyNumber.run. rewrite He. cbn [negb eventPath].
    rewrite Hp. now destruct e. }
  destruct (pull_request payload) as [pr|] eqn:Hpr.
  2:{ left. unfold ReviewPolicyNumber.run. rewrite He. cbn [negb eventPath].
      rewrite Hp. change (await (inr payload)) with (ret payload).
      now rewrite bind_ret_l, Hpr. }
  apply env_exists_iff in He.
  assert (Hev : event_is w payload pr) by exact (conj He (conj Hp Hpr)).
  destruct (number_run_after_threshold w payload pr Hev) as [Hpub _].
  destruct (listReviews w (request_of_world w pr)) as [e1|reviews] eqn:Hr;
    destruct (listRequestedReviewers w (request_of_world w pr))
      as [e2|pending] eqn:Hq;
    try (left; rewrite Hpub; reflexivity).
  right. exists payload, pr, reviews, pending. eexists.
  split; [exact Hev | split; [split; assumption|]].
  rewrite Hpub. reflexivity.
Qed.

(** X16. An approval invocation publishes an output only for a readable
    pull-request event whose two review requests were answered, and, in
    the regex variant, only when the action is "submitted" or
    "review_requested"; it never publishes more than one, and its value is
    "true" or "false" under the name [isApproved]. Neither variant ever
    rejects. *)
Theorem output_needs_an_answered_review_event :
  forall (w : World),
    (published (trace (ReviewPolicyRegex.run w)) = [] \/
     exists payload pr reviews pending b,
       event_is w payload pr /\
       ReviewPolicyRegex.isAcceptableAction (action payload) = true /\
       fetched w pr reviews pending /\
       published (trace (ReviewPolicyRegex.run w))
       = [(IsApproved, boolean_string b)]) /\
    (published (trace (ReviewPolicyNumber.run w)) = [] \/
     exists payload pr reviews pending b,
       event_is w payload pr /\
       fetched w pr reviews pending /\
       published (trace (ReviewPolicyNumber.run w))
       = [(IsApproved, boolean_string b)]) /\
    outcome (ReviewPolicyRegex.run w) = inr tt /\
    outcome (ReviewPolicyNumber.run w) = inr tt.
Proof.
  intros w.
  split; [apply regex_run_outputs | split; [apply number_run_outputs|]].
  split; apply outcome_try_catch_report.
Qed.

(** X17. The two variants behave alike, event for event, whenever the
    regex variant's action gate is open (every readable pull-request event
    has a supported action), the input is empty or a positive integer in
    decimal digits, and the two review requests do not both fail. *)
Theorem variants_agree_on_supported_events :
  forall (w : World),
    (forall payload pr,
        event_is w payload pr ->
        ReviewPolicyRegex.isAcceptableAction (action payload) = true) ->
    getInput w RequiredApprovesAmount = EmptyString
    \/ is_positive_integer (getInput w RequiredApprovesAmount) = true ->
    (forall config e1 e2,
        ~ (listReviews w config = inl e1
           /\ listRequestedReviewers w config = inl e2)) ->
    ReviewPolicyRegex.run w = ReviewPolicyNumber.run w.
Proof.
  intros w Hgate Hinput Hfetch.
  destruct (doesGithubEnvExist
              {| token := GITHUB_TOKEN w;
                 repositoryPath := GITHUB_REPOSITORY w;
                 eventPath := GITHUB_EVENT_PATH w |}) eqn:He.
  2:{ unfold ReviewPolicyRegex.run, ReviewPolicyNumber.run. now rewrite He. }
  destruct (getGithubPayload w (narrowed (GITHUB_EVENT_PATH w)))
    as [e|payload] eqn:Hp.
  { unfold ReviewPolicyRegex.run, ReviewPolicyNumber.run.
    rewrite He. cbn [negb eventPath]. now rewrite Hp. }
  destruct (pull_request payload) as [pr|] eqn:Hpr.
  2:{ unfold ReviewPolicyRegex.run, ReviewPolicyNumber.run.
      rewrite He. cbn [negb eventPath]. rewrite Hp.
      change (await (inr payload)) with (ret payload).
      now rewrite !bind_ret_l, Hpr. }
  apply env_exists_iff in He.
  assert (Hev : event_is w payload pr) by exact (conj He (conj Hp Hpr)).
  rewrite (regex_run_past_guards w payload pr Hev (Hgate payload pr Hev)),
    (number_run_past_guards w payload pr Hev).
  assert (Ht : ReviewPolicyNumber.getRequiredApprovesAmount w
               = ReviewPolicyRegex.getRequiredApprovesAmount w /\
               exists t, ReviewPolicyRegex.getRequiredApprovesAmount w = ret t).
  { destruct Hinput as [Hempty|Hpos].
    - unfold ReviewPolicyNumber.getRequiredApprovesAmount,
        ReviewPolicyRegex.getRequiredApprovesAmount.
      rewrite Hempty. split; [reflexivity | now exists DEFAULT_AMOUNT].
    - destruct (thresholds_on_positive_integers w Hpos) as [H1 H2].
      split; [congruence | eauto]. }
  destruct Ht as [-> [t ->]]. rewrite !bind_ret_l.
  destruct (listReviews w (request_of_world w pr)) as [e1|reviews] eqn:Hr;
    destruct (listRequestedReviewers w (request_of_world w pr))
      as [e2|pending] eqn:Hq.
  - exfalso. apply (Hfetch (request_of_world w pr) e1 e2). now split.
  - reflexivity.
  - reflexivity.
  - cbn [Promise_all2]. change (await (inr reviews)) with (ret reviews).
    change (await (inr pending)) with (ret pending).
    now rewrite !bind_ret_l.
Qed.

Lemma variants_agree_on_supported_events_witness :
  ReviewPolicyRegex.run (Scenarios.submitted_with_input "2")
  = ReviewPolicyNumber.run (Scenarios.submitted_with_input "2").
Proof.
  apply variants_agree_on_supported_events.
  - intros payload pr [_ [Hp _]]. inversion Hp. reflexivity.
  - right. reflexivity.
  - intros config e1 e2 [H _]. discriminate H.
Defined.
End ApprovalOutputs.

(* ================================================================== *)
(** ** The lead-reviewer invocation, end to end *)
(* ================================================================== *)

Section LeadRuns.
Import Runtime Github Notions Observations LeadReviewers.

Lemma forEach_console_log {A : Type} (f : A -> list LogArg) (l : list A) :
  forEach (fun x => console_log (f x)) l
  = (map (fun x => ConsoleLog (f x)) l, inr tt).
Proof.
  induction l as [|x l IH]; [reflexivity|].
  cbn [forEach]. rewrite IH. reflexivity.
Qed.

Lemma invite_check_array w config items posted pending :
  reviewers_fetched w config posted pending ->
  invite_check w config (JS.JArray items)
  = (SetOutput AreLeadsInvited
       (boolean_string
          (areLeadReviewersInvited (requestedReviewers posted pending) items))
     :: lead_summary items (requestedReviewers posted pending)
          (areLeadReviewersInvited (requestedReviewers posted pending) items),
     inr tt).
Proof.
  intros [Hp Hr]. unfold invite_check. rewrite Hp, Hr.
  cbn [Promise_all2 iterate value_forEach]. rewrite !bind_ret_l.
  cbn beta iota.
  rewrite (forEach_console_log (fun reviewer => [LogValue reviewer])).
  rewrite (forEach_console_log (fun reviewer => [LogString reviewer])).
  now destruct (areLeadReviewersInvited _ items).
Qed.

Lemma logs_published_nil {A : Type} (f : A -> list LogArg) (l : list A) :
  published (map (fun x => ConsoleLog (f x)) l) = [] /\
  failures (map (fun x => ConsoleLog (f x)) l) = [].
Proof. induction l as [|x l [IH1 IH2]]; [now split | now split]. Qed.

Lemma lead_summary_logs_only items requested b :
  published (lead_summary items requested b) = [] /\
  failures (lead_summary items requested b) = [].
Proof.
  unfold lead_summary.
  destruct (logs_published_nil (fun r : JS.JSVal => [LogValue r]) items) as [H1 H2].
  destruct (logs_published_nil (fun r : string => [LogString r]) requested) as [H3 H4].
  split.
  - change (published (?a :: ?b :: ?t)) with (published t).
    rewrite published_app, H1. cbn [app].
    change (published (?a :: ?b :: ?t)) with (published t).
    now rewrite published_app, H3.
  - change (failures (?a :: ?b :: ?t)) with (failures t).
    rewrite failures_app, H2. cbn [app].
    change (failures (?a :: ?b :: ?t)) with (failures t).
    now rewrite failures_app, H4.
Qed.

Lemma lead_run_past_guards w config response :
  config_fetched w config response ->
  run w = try_catch (check_config w config response) report_error.
Proof.
  intros [He [pr [o [r [Hpr [Hrepo [-> Hget]]]]]]].
  apply env_exists_iff in He. unfold run. rewrite He, Hpr. cbn [negb].
  rewrite Hrepo. change (await (inr (o, r))) with (ret (o, r)).
  rewrite bind_ret_l, Hget. change (await (inr response)) with (ret response).
  now rewrite bind_ret_l.
Qed.

Lemma check_config_present w config response :
  JS.has_property "content" response = true ->
  JS.has_property "encoding" response = true ->
  check_config w config response = read_config w config response.
Proof.
  intros Hc He. unfold check_config.
  assert (Hin : forall k, in_operator w k response
                          = ret (JS.has_property k response)).
  { intros k. destruct response; try discriminate Hc; reflexivity. }
  rewrite (Hin "content"), bind_ret_l, Hc. cbn [negb].
  rewrite (Hin "encoding"), !bind_ret_l, He. cbn [negb].
  now rewrite bind_ret_l.
Qed.

Lemma lead_verdict_iff (posted : list Review)
    (pending : list RequestedReviewer) (leads : list string) :
  areLeadReviewersInvited (requestedReviewers posted pending)
    (map JS.JString leads) = true
  <-> Forall (invited posted pending) leads.
Proof.
  rewrite areLeadReviewersInvited_forallb, forallb_forall, Forall_forall.
  split.
  - intros H x Hx. apply In_requestedReviewers, has_In.
    apply (H (JS.JString x)). now apply in_map.
  - intros H v Hv. apply in_map_iff in Hv. destruct Hv as [x [<- Hx]].
    simpl. apply has_In, In_requestedReviewers. now apply H.
Qed.

(** X18. Lead-reviewer invocation, end to end: with a complete file object
    whose decoded [reviewers.defaults] is a list of strings and both
    review requests answered, the invocation publishes one output, then
    prints the summary (every configured lead reviewer, then every
    requested reviewer, once each and in order), and raises no failure
    signal; the output is "true" exactly when every lead reviewer has
    posted a review or has a pending review request. *)
Theorem lead_run_publishes_the_verdict :
  forall (w : World) (config : PullsRequestConfig) (response : JS.JSVal)
         (leads : list string) (posted : list Review)
         (pending : list RequestedReviewer),
    config_fetched w config response ->
    JS.has_property "content" response = true ->
    JS.has_property "encoding" response = true ->
    decode_leadReviewers w response = ret (JS.JArray (map JS.JString leads)) ->
    reviewers_fetched w config posted pending ->
    let requested := requestedReviewers posted pending in
    let verdict := areLeadReviewersInvited requested (map JS.JString leads) in
    run w
    = (SetOutput AreLeadsInvited (boolean_string verdict)
         :: lead_summary (map JS.JString leads) requested verdict, inr tt) /\
    published (trace (run w)) = [(AreLeadsInvited, boolean_string verdict)] /\
    failures (trace (run w)) = [] /\
    (verdict = true <-> Forall (invited posted pending) leads).
Proof.
  intros w config response leads posted pending Hcfg Hc He Hd Hf
    requested verdict.
  assert (Hrun : run w
                 = (SetOutput AreLeadsInvited (boolean_string verdict)
                      :: lead_summary (map JS.JString leads) requested verdict,
                    inr tt)).
  { rewrite (lead_run_past_guards w config response Hcfg),
      (check_config_present w config response Hc He).
    unfold read_config. rewrite Hd, bind_ret_l. cbn [JS.instanceof_Array negb].
    rewrite bind_ret_l, (invite_check_array w config _ posted pending Hf).
    reflexivity. }
  split; [exact Hrun|]. rewrite Hrun. cbn [trace fst].
  destruct (lead_summary_logs_only (map JS.JString leads) requested verdict)
    as [H1 H2].
  repeat split.
  - change (published (?a :: ?t)) with ((AreLeadsInvited, boolean_string verdict)
                                          :: published t).
    now rewrite H1.
  - change (failures (?a :: ?t)) with (failures t). exact H2.
  - apply lead_verdict_iff.
  - apply lead_verdict_iff.
Qed.

Lemma lead_run_publishes_the_verdict_witness :
  config_fetched Cases.two_leads Cases.two_leads_config
    Scenarios.file_response /\
  reviewers_fetched Cases.two_leads Cases.two_leads_config []
    [request_of "lead1"] /\
  published (trace (run Cases.two_leads)) = [(AreLeadsInvited, "false")].
Proof.
  assert (Hcfg : config_fetched Cases.two_leads Cases.two_leads_config
                   Scenarios.file_response).
  { split; [repeat split; discriminate|].
    exists {| number := 7 |}, "saritasa-nest",
      (Some "saritasa-pr-approved-action").
    repeat split. }
  assert (Hf : reviewers_fetched Cases.two_leads Cases.two_leads_config []
                 [request_of "lead1"]) by (split; reflexivity).
  split; [exact Hcfg | split; [exact Hf|]].
  exact (proj1 (proj2 (lead_run_publishes_the_verdict Cases.two_leads
                         Cases.two_leads_config Scenarios.file_response
                         ["lead1"; "lead2"] [] [request_of "lead1"]
                         Hcfg eq_refl eq_refl eq_refl Hf))).
Defined.

Lemma trace_nil_bind {A B : Type} (c : Action A) (k : A -> Action B) :
  trace c = [] -> (forall a, trace (k a) = []) -> trace (bind c k) = [].
Proof.
  intros Hc Hk. rewrite trace_bind, Hc.
  destruct (outcome c); [reflexivity | apply Hk].
Qed.

Lemma get_property_trace w v k : trace (get_property w v k) = [].
Proof.
  destruct v; try reflexivity. simpl.
  now destruct (List.find _ props).
Qed.

Lemma in_operator_trace w k v : trace (in_operator w k v) = [].
Proof. now destruct v. Qed.

Lemma decode_leadReviewers_trace w response :
  trace (decode_leadReviewers w response) = [].
Proof.
  unfold decode_leadReviewers.
  repeat (apply trace_nil_bind;
          [first [apply get_property_trace | reflexivity] | intros ?]).
  apply get_property_trace.
Qed.

Lemma published_after_quiet {A B : Type} (c : Action A) (k : A -> Action B) :
  trace c = [] ->
  published (trace (bind c k)) = []
  \/ exists a, published (trace (bind c k)) = published (trace (k a)).
Proof.
  intros Hc. rewrite trace_bind, Hc.
  destruct (outcome c) as [e|a]; [now left | right; now exists a].
Qed.

Lemma invite_check_outputs w config v :
  published (trace (invite_check w config v)) = [] \/
  exists posted pending b,
    reviewers_fetched w config posted pending /\
    published (trace (invite_check w config v))
    = [(AreLeadsInvited, boolean_string b)].
Proof.
  destruct (listRequestedReviewers w config) as [e|pending] eqn:Hp;
    destruct (listReviews w config) as [e'|posted] eqn:Hr;
    try (left; unfold invite_check; now rewrite Hp, Hr).
  assert (Hf : reviewers_fetched w config posted pending) by now split.
  destruct v as [| |b|n|s|items|props];
    try (left; unfold invite_check; now rewrite Hp, Hr).
  - right.
    exists posted, pending,
      (areLeadReviewersInvited (requestedReviewers posted pending)
         (map (fun c => JS.JString (String c EmptyString)) (JS.chars s))).
    split; [exact Hf|].
    unfold invite_check. rewrite Hp, Hr.
    cbn [Promise_all2 iterate value_forEach]. rewrite !bind_ret_l.
    cbn beta iota.
    now destruct (areLeadReviewersInvited _ _).
  - right. exists posted, pending. eexists. split; [exact Hf|].
    rewrite (invite_check_array w config items posted pending Hf).
    cbn [trace fst].
    change (published (?a :: ?t))
      with ((AreLeadsInvited,
             boolean_string
               (areLeadReviewersInvited (requestedReviewers posted pending)
                  items)) :: published t).
    now rewrite (proj1 (lead_summary_logs_only _ _ _)).
Qed.

Lemma published_after_signal (message : string) (k : unit -> Action unit) :
  published (trace (bind (setFailed message) k)) = published (trace (k tt)).
Proof. unfold setFailed, emit. now rewrite bind_value. Qed.

Lemma read_config_outputs w config response :
  published (trace (read_config w config response)) = [] \/
  exists posted pending b,
    reviewers_fetched w config posted pending /\
    published (trace (read_config w config response))
    = [(AreLeadsInvited, boolean_string b)].
Proof.
  unfold read_config.
  destruct (published_after_quiet (decode_leadReviewers w response)
              (fun leadReviewers =>
                 bind (if negb (JS.instanceof_Array leadReviewers)
                       then setFailed
                              "Could not read lead reviewers from the config"
                       else ret tt)
                      (fun _ => invite_check w config leadReviewers))
              (decode_leadReviewers_trace w response)) as [H|[v H]];
    [now left|].
  rewrite H.
  destruct (JS.instanceof_Array v); cbn [negb].
  - rewrite bind_ret_l. apply invite_check_outputs.
  - rewrite published_after_signal. apply invite_check_outputs.
Qed.

Lemma check_config_outputs w config response :
  published (trace (check_config w config response)) = [] \/
  exists posted pending b,
    reviewers_fetched w config posted pending /\
    published (trace (check_config w config response))
    = [(AreLeadsInvited, boolean_string b)].
Proof.
  unfold check_config.
  match goal with
  | |- context [bind (in_operator w "content" response) ?k] =>
      destruct (published_after_quiet (in_operator w "content" response) k
                  (in_operator_trace w "content" response)) as [H|[hc H]]
  end; [now left|].
  rewrite H. clear H.
  match goal with
  | |- context [bind ?c ?k] =>
      assert (Hq : trace c = []);
      [|destruct (published_after_quiet c k Hq) as [H|[missing H]]]
  end.
  - destruct hc; cbn [negb]; [|reflexivity].
    apply trace_nil_bind; [apply in_operator_trace | reflexivity].
  - now left.
  - rewrite H. destruct missing.
    + rewrite published_after_signal. apply read_config_outputs.
    + rewrite bind_ret_l. apply read_config_outputs.
Qed.

(** X19. The lead-reviewer invocation never rejects; it publishes at most
    one output, named [areLeadReviewersInvited] and valued "true" or
    "false", and only when the configuration file was fetched and both
    review requests were answered. *)
Theorem lead_output_needs_answered_requests :
  forall (w : World),
    outcome (run w) = inr tt /\
    (published (trace (run w)) = [] \/
     exists config response posted pending b,
       config_fetched w config response /\
       reviewers_fetched w config posted pending /\
       published (trace (run w)) = [(AreLeadsInvited, boolean_string b)]).
Proof.
  intros w. split; [apply outcome_try_catch_report|].
  destruct (doesGithubEnvExist
              {| token := GITHUB_TOKEN w;
                 repositoryPath := GITHUB_REPOSITORY w;
                 eventPath := GITHUB_EVENT_PATH w |}) eqn:He.
  2:{ left. unfold run. now rewrite He. }
  destruct (context_pull_request w) as [pr|] eqn:Hpr.
  2:{ left. unfold run. now rewrite He, Hpr. }
  destruct (context_repo w) as [e|[o r]] eqn:Hrepo.
  { left. unfold run. rewrite He, Hpr, Hrepo. now destruct e. }
  set (config := {| owner := o; repo := r; pull_number := number pr |}).
  destruct (getContent w config (getInput w Config) (context_ref w))
    as [e|response] eqn:Hget.
  { left. unfold run. rewrite He, Hpr, Hrepo. cbn [negb].
    change (await (inr (o, r))) with (ret (o, r)). rewrite bind_ret_l.
    fold config. rewrite Hget. now destruct e. }
  apply env_exists_iff in He.
  assert (Hcfg : config_fetched w config response).
  { split; [exact He|]. exists pr, o, r. repeat split; assumption. }
  rewrite (lead_run_past_guards w config response Hcfg),
    published_try_catch_report.
  destruct (check_config_outputs w config response)
    as [H|[posted [pending [b [Hf H]]]]]; [now left|].
  right. exists config, response, posted, pending, b. repeat split;
    try assumption; apply Hcfg || apply Hf.
Qed.
End LeadRuns.

Section LeadDocuments.
Import Runtime Github Notions Observations LeadReviewers.

Lemma bind_assoc {A B C : Type} (c : Action A) (f : A -> Action B)
    (g : B -> Action C) :
  bind (bind c f) g = bind c (fun a => bind (f a) g).
Proof.
  destruct c as [t [e|a]]; simpl; [reflexivity|].
  destruct (f a) as [t' [e|b]]; simpl; [reflexivity|].
  destruct (g b). now rewrite app_assoc.
Qed.

Lemma run_with_document w config response content encoding text doc :
  config_fetched w config response ->
  JS.has_property "content" response = true ->
  JS.has_property "encoding" response = true ->
  get_property w response "content" = ret content ->
  get_property w response "encoding" = ret encoding ->
  Buffer_from_toString w content encoding = inr text ->
  parse w text = inr doc ->
  run w
  = try_catch
      (reviewers <- get_property w doc "reviewers" ;;
       leadReviewers <- get_property w reviewers "defaults" ;;
       (if negb (JS.instanceof_Array leadReviewers)
        then setFailed "Could not read lead reviewers from the config"
        else ret tt) ;;
       invite_check w config leadReviewers)%action
      report_error.
Proof.
  intros Hcfg Hc He Hgc Hge Hb Hp.
  rewrite (lead_run_past_guards w config response Hcfg),
    (check_config_present w config response Hc He).
  unfold read_config, decode_leadReviewers.
  rewrite Hgc, bind_ret_l, Hge, bind_ret_l, Hb.
  change (await (inr text)) with (ret text). rewrite bind_ret_l, Hp.
  change (await (inr doc)) with (ret doc). rewrite bind_ret_l.
  now rewrite bind_assoc.
Qed.

(** X20. A configuration document without the expected list. An empty
    document (the parser gives null) and a document without a [reviewers]
    key end the invocation with the engine's TypeError as the only failure
    signal. A [reviewers] mapping without [defaults] raises the
    lead-reviewers failure signal, after which the review requests are
    still sent and the loop over the missing list throws: two failure
    signals. No output is published in any of these cases. *)
Theorem document_without_the_list_fails :
  forall (w : World) (config : PullsRequestConfig)
         (response content encoding : JS.JSVal) (text : string)
         (doc : JS.JSVal),
    config_fetched w config response ->
    JS.has_property "content" response = true ->
    JS.has_property "encoding" response = true ->
    get_property w response "content" = ret content ->
    get_property w response "encoding" = ret encoding ->
    Buffer_from_toString w content encoding = inr text ->
    parse w text = inr doc ->
    (doc = JS.JNull ->
     run w = ([SetFailed (TypeError_message w (CannotReadProperty "reviewers"))],
              inr tt)) /\
    (forall props,
        doc = JS.JObject props ->
        get_property w doc "reviewers" = ret JS.JUndefined ->
        run w
        = ([SetFailed (TypeError_message w (CannotReadProperty "defaults"))],
           inr tt)) /\
    (forall reviewers posted pending,
        get_property w doc "reviewers" = ret reviewers ->
        get_property w reviewers "defaults" = ret JS.JUndefined ->
        reviewers_fetched w config posted pending ->
        run w
        = ([SetFailed "Could not read lead reviewers from the config";
            SetFailed (TypeError_message w NotIterable)], inr tt)).
Proof.
  intros w config response content encoding text doc
    Hcfg Hc He Hgc Hge Hb Hp.
  rewrite (run_with_document w config response content encoding text doc)
    by assumption.
  repeat split.
  - intros ->. reflexivity.
  - intros props -> Hr. now rewrite Hr, bind_ret_l.
  - intros reviewers posted pending Hr Hd [Hq Hs].
    rewrite Hr, bind_ret_l, Hd, bind_ret_l. cbn [JS.instanceof_Array negb].
    unfold invite_check. rewrite Hq, Hs. reflexivity.
Qed.

Lemma document_without_the_list_fails_witness :
  run Cases.empty_document
  = ([SetFailed "Cannot read properties of undefined"], inr tt) /\
  run Cases.no_defaults
  = ([SetFailed "Could not read lead reviewers from the config";
      SetFailed "leadReviewers is not iterable"], inr tt).
Proof.
  assert (Hcfg : forall parsed,
             config_fetched (Scenarios.lead_world Scenarios.file_response parsed)
               Cases.two_leads_config Scenarios.file_response).
  { intros parsed. split; [repeat split; discriminate|].
    exists {| number := 7 |}, "saritasa-nest",
      (Some "saritasa-pr-approved-action").
    repeat split. }
  split.
  - exact (proj1 (document_without_the_list_fails Cases.empty_document
                    Cases.two_leads_config Scenarios.file_response
                    (JS.JString "reviewers: {defaults: lead1}")
                    (JS.JString "utf8") "reviewers: {defaults: lead1}"
                    JS.JNull (Hcfg _) eq_refl eq_refl eq_refl eq_refl
                    eq_refl eq_refl) eq_refl).
  - exact (proj2 (proj2 (document_without_the_list_fails Cases.no_defaults
                    Cases.two_leads_config Scenarios.file_response
                    (JS.JString "reviewers: {defaults: lead1}")
                    (JS.JString "utf8") "reviewers: {defaults: lead1}"
                    _ (Hcfg _) eq_refl eq_refl eq_refl eq_refl
                    eq_refl eq_refl))
             (JS.JObject [("groups", JS.JArray [])]) [] [request_of "lead1"]
             eq_refl eq_refl (conj eq_refl eq_refl)).
Defined.
End LeadDocuments.
